(** * SRA_download: a shallow embedding of the download orchestration

    The development follows the two source files of the repository:
    [SRA_download_lib.py] (the library: [list_to_dict], [gsm_to_srr],
    [gsm_to_srp], [download_fastq], [download_fastq_parallel],
    [download_GEO_dataset]) and [SRA_download.py] (the command line).

    Python values are modelled as follows.
    - A [str] is a [string], one [ascii] per character; the model covers
      text whose code points lie below 256.
    - [None]-able arguments are [option]s; Python truthiness of such an
      argument is the function [truthy].
    - A [dict] is a [gmap]; where only the iteration order of its keys
      matters (the samples of a dataset) it is an association list.
    - An uncaught exception is the [Err] case of a result ([res]).
    - Calls to the outside world (the file system, GEOparse, pysradb,
      joblib, subprocess) read a [World] and append to a trace of
      [event]s. *)

From Stdlib Require Import ZArith Ascii.
From stdpp Require Import gmap strings list.

Local Open Scope Z_scope.

(** ** Exceptions and the result type *)

Inductive exn : Type :=
| ValueError (msg : string)
| TypeError (msg : string)
| KeyError (key : string)
| OSError (msg : string)
| SystemExit (code : Z)
| LibraryError (origin : string).

Inductive res (A : Type) : Type :=
| Ok (a : A)
| Err (e : exn).
Arguments Ok {A} a.
Arguments Err {A} e.

Definition raise {A} (e : exn) : res A := Err e.

Global Instance res_ret : MRet res := @Ok.
Global Instance res_bind : MBind res := λ A B k m,
  match m with
  | Ok a => k a
  | Err e => Err e
  end.

Global Instance res_fmap : FMap res := λ A B f m,
  match m with
  | Ok a => Ok (f a)
  | Err e => Err e
  end.

Definition raises {A} (m : res A) : Prop := ∃ e, m = Err e.

(** ** Python strings *)

Module Py.

Definition LF : ascii := "010"%char.

(** [str.isspace] on one character, for code points below 256:
    TAB..CR, FS..US, SPACE, NEL and NBSP. *)
Definition isspace (c : ascii) : bool :=
  let n := N_of_ascii c in
  ((9 <=? n) && (n <=? 13) || (28 <=? n) && (n <=? 32)
   || (n =? 133) || (n =? 160))%N.

Fixpoint lstrip (s : string) : string :=
  match s with
  | EmptyString => EmptyString
  | String c s' => if isspace c then lstrip s' else s
  end.

Fixpoint rstrip (s : string) : string :=
  match s with
  | EmptyString => EmptyString
  | String c s' =>
      match rstrip s' with
      | EmptyString => if isspace c then EmptyString else String c EmptyString
      | r => String c r
      end
  end.

(** Whitespace only. *)
Fixpoint all_space (s : string) : bool :=
  match s with
  | EmptyString => true
  | String c s' => isspace c && all_space s'
  end.

Definition starts_with_space (s : string) : bool :=
  match s with
  | EmptyString => false
  | String c _ => isspace c
  end.

Fixpoint ends_with_space (s : string) : bool :=
  match s with
  | EmptyString => false
  | String c EmptyString => isspace c
  | String _ s' => ends_with_space s'
  end.

(** [str.strip()] with no argument removes whitespace at both ends. *)
Definition strip (s : string) : string := rstrip (lstrip s).

Fixpoint startswith (p s : string) : bool :=
  match p, s with
  | EmptyString, _ => true
  | String a p', String b s' => if Ascii.eqb a b then startswith p' s' else false
  | String _ _, EmptyString => false
  end.

(** [sub in s] *)
Fixpoint contains (sub s : string) : bool :=
  startswith sub s ||
  match s with
  | EmptyString => false
  | String _ s' => contains sub s'
  end.

(** [sep.join(l)] *)
Fixpoint join (sep : string) (l : list string) : string :=
  match l with
  | [] => ""
  | [s] => s
  | s :: l' => s +:+ sep +:+ join sep l'
  end.

(** The pieces of [s] between the occurrences of a non-empty [sep],
    scanning left to right; [skip] counts the characters of a separator
    just matched that are still to be passed over. *)
Fixpoint split_from (sep : string) (skip : nat) (s : string) : list string :=
  match s with
  | EmptyString => [""]
  | String c s' =>
      match skip with
      | S k => split_from sep k s'
      | O =>
          if startswith sep s
          then "" :: split_from sep (pred (String.length sep)) s'
          else match split_from sep O s' with
               | [] => [String c ""]
               | p :: ps => String c p :: ps
               end
      end
  end.

(** [s.split(sep)]: an empty separator is a [ValueError]. *)
Definition split (s sep : string) : res (list string) :=
  match sep with
  | EmptyString => raise (ValueError "empty separator")
  | _ => mret (split_from sep O s)
  end.

(** [file.readlines()] on the decoded text of a file: every line keeps
    its terminating newline, the last line may lack one. *)
Fixpoint readlines (text : string) : list string :=
  match text with
  | EmptyString => []
  | String c text' =>
      if Ascii.eqb c LF then String c "" :: readlines text'
      else match readlines text' with
           | [] => [String c ""]
           | l :: ls => String c l :: ls
           end
  end.

(** Truthiness of an argument that is [None] or a [str]. *)
Definition truthy (o : option string) : bool :=
  match o with
  | None => false
  | Some EmptyString => false
  | Some _ => true
  end.

End Py.

(** ** [list_to_dict] *)

(** [key, value = parts]: unpacking a list into exactly two names. *)
Definition unpack2 (parts : list string) : res (string * string) :=
  match parts with
  | [k; v] => mret (k, v)
  | [] | [_] => raise (ValueError "not enough values to unpack")
  | _ => raise (ValueError "too many values to unpack")
  end.

(** [{key: value for key, value in pairs}]: later bindings overwrite. *)
Fixpoint dict_comprehension (d : gmap string string)
    (pairs : list (list string)) : res (gmap string string) :=
  match pairs with
  | [] => mret d
  | parts :: rest =>
      '(k, v) ← unpack2 parts; dict_comprehension (<[k:=v]> d) rest
  end.

Definition list_to_dict (list : list string) (split : string)
  : res (gmap string string) :=
  pairs ← mapM (λ pair, Py.split pair split) list;
  dict_comprehension ∅ pairs.

(** ** The outside world *)

(** A [pandas.DataFrame] as the metadata service builds it: named columns
    and rows of cells, the rows labelled 0, 1, 2, ... (the default index). *)
Record DataFrame : Type := {
  columns : list string;
  rows : list (list string)
}.

(** Every row has one cell per column. *)
Definition well_formed (df : DataFrame) : Prop :=
  Forall (λ r : list string, length r = length (columns df)) (rows df).

(** Position of the first column called [col]. *)
Fixpoint column_index (col : string) (cols : list string) : option nat :=
  match cols with
  | [] => None
  | c :: cols' => if decide (c = col) then Some O else S <$> column_index col cols'
  end.

(** [df.at[0, col]]: label-based access to one cell of the row labelled
    0; an absent row label or column name is a [KeyError]. *)
Definition at_0 (df : DataFrame) (col : string) : res string :=
  match column_index col (columns df) with
  | None => raise (KeyError col)
  | Some j =>
      match rows df !! 0%nat with
      | None => raise (KeyError "0")
      | Some r =>
          match r !! j with
          | Some v => mret v
          | None => raise (KeyError col)
          end
      end
  end.

(** A GEOparse sample ([GSM]) and series ([GSE]); [gsms] is a dict, kept
    as an association list in the dict's iteration order. *)
Record GSM : Type := { metadata : list (string * list string) }.
Record GSE : Type := { gsms : list (string * GSM) }.

(** What [delayed(download_fastq)(out_dir, sample_id, download_methods)]
    captures: the positional arguments of one deferred call. *)
Record Task : Type := {
  task_out_dir : option string;
  task_sample_id : string;
  task_download_methods : string
}.

(** [sample_ids] of [download_fastq] is a [str] or a [list]. *)
Inductive ids : Type :=
| OneId (s : string)
| IdList (l : list string).

Record World : Type := {
  (** [open(path, "r")] then [readlines()]: the decoded text, or the
      exception [open] raises *)
  file_text : string → res string;
  (** [GEOparse.get_GEO] *)
  get_GEO : string → res GSE;
  (** [SRAweb().sra_metadata] *)
  sra_metadata : string → res DataFrame;
  (** the order in which the pool's workers take up the submitted tasks *)
  pool_order : list Task → list Task;
  (** every submitted task is taken up, once *)
  pool_fair : ∀ tasks, pool_order tasks ≡ₚ tasks;
  (** the error with which the system refuses to start a shell command,
      if it does ([OSError] "Argument list too long" for a command over
      the system's limit, for one) *)
  launch_error : string → option exn;
  (** the exit status of a shell command that was started *)
  exit_status : string → Z
}.

(** What a run does that can be seen from outside, in order:
    - [EvOpen]: [open(path, "r")];
    - [EvGetGEO]: a call of [GEOparse.get_GEO];
    - [EvSraMetadata]: a call of [SRAweb().sra_metadata];
    - [EvParallel]: the call [Parallel(n_jobs=...)(tasks)], with the worker
      count and the deferred calls handed over;
    - [EvDownloadFastq]: entry into [download_fastq], with its arguments;
    - [EvSubprocess]: a call of [subprocess.call(cmd, shell=True)],
      whether or not the command could be started. *)
Inductive event : Type :=
| EvOpen (path : string)
| EvGetGEO (GEO_id : string)
| EvSraMetadata (gsm : string)
| EvParallel (n_jobs : Z) (tasks : list Task)
| EvDownloadFastq (out_dir : option string) (sample_ids : option ids)
    (download_methods : string) (file : option string)
| EvSubprocess (cmd : string).

(** ** The monad of the library functions: read the world, log events,
    maybe raise *)

Definition IO (A : Type) : Type := World → list event * res A.

Global Instance IO_ret : MRet IO := λ A a _, ([], Ok a).
Global Instance IO_bind : MBind IO := λ A B k m w,
  match m w with
  | (t1, Ok a) => let '(t2, r) := k a w in (t1 ++ t2, r)
  | (t1, Err e) => (t1, Err e)
  end.

Definition lift {A} (r : res A) : IO A := λ _, ([], r).
Definition emit (ev : event) : IO unit := λ _, ([ev], Ok tt).
Definition ask {A} (f : World → A) : IO A := λ w, ([], Ok (f w)).

(** [with open(path, "r") as file: ... file.readlines()] *)
Definition open_readlines (path : string) : IO (list string) := λ w,
  ([EvOpen path], Py.readlines <$> file_text w path).

(** *** pysradb: identifier translation *)

Definition gsm_to_srr (gsm : string) : IO string := λ w,
  ([EvSraMetadata gsm],
   sample_metadata ← sra_metadata w gsm;
   at_0 sample_metadata "run_accession").

Definition gsm_to_srp (gsm : string) : IO string := λ w,
  ([EvSraMetadata gsm],
   sample_metadata ← sra_metadata w gsm;
   at_0 sample_metadata "study_accession").

(** *** subprocess *)

(** A NUL character somewhere in a string. *)
Fixpoint has_nul (s : string) : bool :=
  match s with
  | EmptyString => false
  | String c s' => Ascii.eqb c "000"%char || has_nul s'
  end.

(** Starting [/bin/sh -c cmd]: Python refuses a command with a NUL
    character ([ValueError], "embedded null byte") before it asks the
    system; the system may refuse in its turn; otherwise the command runs
    and its exit status comes back. *)
Definition launch (w : World) (cmd : string) : res Z :=
  if has_nul cmd then raise (ValueError "embedded null byte")
  else match launch_error w cmd with
       | Some e => raise e
       | None => mret (exit_status w cmd)
       end.

(** [subprocess.call(cmd, shell=True)]: the exit status is returned, an
    error of the launch is raised. *)
Definition subprocess_call (cmd : string) : IO Z := λ w,
  ([EvSubprocess cmd], launch w cmd).

(** ** [download_fastq] *)

(** How an f-string renders [sample_ids] once a list has been joined. *)
Definition format_ids (sample_ids : option ids) : string :=
  match sample_ids with
  | None => "None"
  | Some (OneId s) => s
  | Some (IdList l) => Py.join " " l
  end.

Definition out_dir_parser (out_dir : option string) : string :=
  match out_dir with
  | Some (String _ _ as d) => "--output-directory " +:+ d
  | _ => ""
  end.

Definition kingfisher_command (sample_ids out_dir_parser download_methods : string)
  : string :=
  "kingfisher get --run-identifiers " +:+ sample_ids +:+ " " +:+ out_dir_parser
    +:+ " --download-methods " +:+ download_methods.

Definition download_fastq (out_dir : option string) (sample_ids : option ids)
    (download_methods : string) (file : option string) : IO unit :=
  emit (EvDownloadFastq out_dir sample_ids download_methods file);;
  sample_ids ← match file with
               | Some (String _ _ as path) =>
                   lines ← open_readlines path;
                   mret (Some (IdList (Py.strip <$> lines)))
               | _ => mret sample_ids
               end;
  _ ← subprocess_call
        (kingfisher_command (format_ids sample_ids) (out_dir_parser out_dir)
           download_methods);
  mret tt.

(** ** joblib *)

Definition delayed_download_fastq (out_dir : option string) (sample_id : string)
    (download_methods : string) : Task :=
  {| task_out_dir := out_dir;
     task_sample_id := sample_id;
     task_download_methods := download_methods |}.

Definition run_task (t : Task) : IO unit :=
  download_fastq (task_out_dir t) (Some (OneId (task_sample_id t)))
    (task_download_methods t) None.

(** [Parallel(n_jobs=n_jobs)(tasks)], joblib's pool. Setting up the
    workers comes first and refuses [n_jobs == 0] with
    [ValueError("n_jobs == 0 in Parallel has no meaning")], before any task
    is started; any other count (a negative one counts back from the
    number of cores) starts workers that take up the submitted tasks in an
    order of the pool's choosing, [pool_order]. A task that raises ends
    the pool: its exception is raised again in the caller and the tasks
    not taken up by then are dropped (tasks other workers were running
    meanwhile count as taken up before it). The list of results is
    dropped by the caller. *)
Definition Parallel (n_jobs : Z) (tasks : list Task) : IO unit :=
  emit (EvParallel n_jobs tasks);;
  if n_jobs =? 0
  then lift (raise (ValueError "n_jobs == 0 in Parallel has no meaning"))
  else
    order ← ask pool_order;
    _ ← mapM run_task (order tasks);
    mret tt.

(** ** [download_fastq_parallel] *)

(** [len(sample_list)] *)
Definition py_len (sample_list : option (list string)) : res Z :=
  match sample_list with
  | None => raise (TypeError "object of type 'NoneType' has no len()")
  | Some l => mret (Z.of_nat (length l))
  end.

(** [iter(sample_list)], taken when the generator expression is built *)
Definition py_iter (sample_list : option (list string)) : res (list string) :=
  match sample_list with
  | None => raise (TypeError "'NoneType' object is not iterable")
  | Some l => mret l
  end.

Definition download_fastq_parallel (out_dir : option string)
    (sample_list : option (list string)) (download_methods : string)
    (processes : Z) (file : option string) (use_max_processes : bool)
  : IO unit :=
  sample_list ← match file with
                | Some (String _ _ as path) =>
                    lines ← open_readlines path;
                    mret (Some (Py.strip <$> lines))
                | _ => mret sample_list
                end;
  processes ← (if use_max_processes then lift (py_len sample_list)
               else mret processes);
  samples ← lift (py_iter sample_list);
  Parallel processes
    ((λ sample_id, delayed_download_fastq out_dir sample_id download_methods)
       <$> samples).

(** ** [download_GEO_dataset] *)

Definition get_GEO_info (GEO_id : string) : IO GSE := λ w,
  ([EvGetGEO GEO_id], get_GEO w GEO_id).

Definition download_GEO_dataset (GEO_id : string) (out_dir : option string)
    (download_methods : string) (processes : Z) (use_max_processes : bool)
  : IO unit :=
  gse ← get_GEO_info GEO_id;
  sample_ids ← mapM gsm_to_srr (gsms gse).*1;
  let processes :=
    if use_max_processes then Z.of_nat (length sample_ids) else processes in
  download_fastq_parallel out_dir (Some sample_ids) download_methods processes
    None false.

(** ** The command line ([SRA_download.py]) *)

Module Cli.

(** The [dest] of each declared option. *)
Inductive dest : Type :=
| input_file | output_dir | download_methods | processes | use_max_processes.

Global Instance dest_eq_dec : EqDecision dest.
Proof. solve_decision. Defined.

(** The option occurrences argparse finds on a command line, in order,
    each with the string handed to the option's [type]. How argparse reads
    the words of [sys.argv] (option strings, abbreviations, [--opt=value])
    is left to it: a command line is taken as what that reading yields. *)
Definition cmdline : Type := list (dest * string).

Record Namespace : Type := {
  ns_input_file : option string;
  ns_output_dir : option string;
  ns_download_methods : string;
  ns_processes : Z;
  ns_use_max_processes : bool
}.

(** [bool(s)] on a [str]: only the empty string is false. *)
Definition py_bool (s : string) : bool :=
  match s with
  | EmptyString => false
  | String _ _ => true
  end.

Definition digit (c : ascii) : option Z :=
  let n := N_of_ascii c in
  if ((48 <=? n) && (n <=? 57))%N then Some (Z.of_N n - 48) else None.

(** The whitespace [int] passes over at both ends of a [str]: TAB..CR,
    SPACE, NEL and NBSP (not FS..US, which [str.strip] removes). *)
Definition int_isspace (c : ascii) : bool :=
  let n := N_of_ascii c in
  ((9 <=? n) && (n <=? 13) || (n =? 32) || (n =? 133) || (n =? 160))%N.

Fixpoint int_lstrip (s : string) : string :=
  match s with
  | EmptyString => EmptyString
  | String c s' => if int_isspace c then int_lstrip s' else s
  end.

Fixpoint int_rstrip (s : string) : string :=
  match s with
  | EmptyString => EmptyString
  | String c s' =>
      match int_rstrip s' with
      | EmptyString => if int_isspace c then EmptyString else String c EmptyString
      | r => String c r
      end
  end.

(** Decimal digits, single underscores allowed between two digits: the
    value and the number of digits. *)
Fixpoint digits (acc : Z) (count : N) (after_digit : bool) (s : string)
  : option (Z * N) :=
  match s with
  | EmptyString => if after_digit then Some (acc, count) else None
  | String c s' =>
      match digit c with
      | Some d => digits (10 * acc + d) (N.succ count) true s'
      | None =>
          if Ascii.eqb c "_"%char && after_digit then digits acc count false s'
          else None
      end
  end.

(** [sys.get_int_max_str_digits()], as the interpreter starts. *)
Definition int_max_str_digits : N := 4300.

(** An unsigned literal within the limit on the number of digits. *)
Definition unsigned (s : string) : option Z :=
  match digits 0 0 false s with
  | Some (v, count) => if (count <=? int_max_str_digits)%N then Some v else None
  | None => None
  end.

(** [int(s)] on a [str], base 10. *)
Definition py_int (s : string) : option Z :=
  match int_rstrip (int_lstrip s) with
  | String "+"%char r => unsigned r
  | String "-"%char r => Z.opp <$> unsigned r
  | t => unsigned t
  end.

(** The values before any option is read: the declared defaults. *)
Definition defaults : Namespace :=
  {| ns_input_file := None;
     ns_output_dir := None;
     ns_download_methods := "ena-ascp ena-ftp aws-http prefetch";
     ns_processes := 10;
     ns_use_max_processes := false |}.

(** The store action: convert with the option's [type], overwrite the
    [dest]. A value the type rejects ends the program with status 2. *)
Definition store (ns : Namespace) (occ : dest * string) : res Namespace :=
  let '(d, v) := occ in
  match d with
  | input_file =>
      mret {| ns_input_file := Some v;
              ns_output_dir := ns_output_dir ns;
              ns_download_methods := ns_download_methods ns;
              ns_processes := ns_processes ns;
              ns_use_max_processes := ns_use_max_processes ns |}
  | output_dir =>
      mret {| ns_input_file := ns_input_file ns;
              ns_output_dir := Some v;
              ns_download_methods := ns_download_methods ns;
              ns_processes := ns_processes ns;
              ns_use_max_processes := ns_use_max_processes ns |}
  | download_methods =>
      mret {| ns_input_file := ns_input_file ns;
              ns_output_dir := ns_output_dir ns;
              ns_download_methods := v;
              ns_processes := ns_processes ns;
              ns_use_max_processes := ns_use_max_processes ns |}
  | processes =>
      match py_int v with
      | Some n =>
          mret {| ns_input_file := ns_input_file ns;
                  ns_output_dir := ns_output_dir ns;
                  ns_download_methods := ns_download_methods ns;
                  ns_processes := n;
                  ns_use_max_processes := ns_use_max_processes ns |}
      | None => raise (SystemExit 2)
      end
  | use_max_processes =>
      mret {| ns_input_file := ns_input_file ns;
              ns_output_dir := ns_output_dir ns;
              ns_download_methods := ns_download_methods ns;
              ns_processes := ns_processes ns;
              ns_use_max_processes := py_bool v |}
  end.

Fixpoint parse_from (ns : Namespace) (argv : cmdline) : res Namespace :=
  match argv with
  | [] => mret ns
  | occ :: argv' => ns' ← store ns occ; parse_from ns' argv'
  end.

Definition parse_args (argv : cmdline) : res Namespace :=
  parse_from defaults argv.

(** The script: parse, then one call of [download_fastq_parallel]. *)
Definition main (argv : cmdline) : IO unit :=
  args ← lift (parse_args argv);
  download_fastq_parallel (ns_output_dir args) None (ns_download_methods args)
    (ns_processes args) (ns_input_file args) (ns_use_max_processes args).

(** The value of the last occurrence of an option, if it occurs. *)
Fixpoint supplied (d : dest) (argv : cmdline) : option string :=
  match argv with
  | [] => None
  | (d', v) :: argv' =>
      match supplied d argv' with
      | Some v' => Some v'
      | None => if decide (d = d') then Some v else None
      end
  end.

End Cli.

(** ** Reading a trace *)

(** The pool requests of a run: worker count and submitted tasks. *)
Definition pool_requests (tr : list event) : list (Z * list Task) :=
  omap (λ ev, match ev with EvParallel n ts => Some (n, ts) | _ => None end) tr.

(** The invocations of [download_fastq] of a run, as the tasks they serve. *)
Definition invocations (tr : list event)
  : list (option string * option ids * string * option string) :=
  omap (λ ev, match ev with
              | EvDownloadFastq o i m f => Some (o, i, m, f)
              | _ => None
              end) tr.

(** The shell commands of a run. *)
Definition commands (tr : list event) : list string :=
  omap (λ ev, match ev with EvSubprocess c => Some c | _ => None end) tr.

(** The identifier translations of a run. *)
Definition translations (tr : list event) : list string :=
  omap (λ ev, match ev with EvSraMetadata g => Some g | _ => None end) tr.


(** ** Notions used in the statements *)

(** The pair of parts a string splits into, when it splits on the
    separator into exactly two parts. *)
Definition binding_of (sep s : string) : option (string * string) :=
  match Py.split s sep with
  | Ok [k; v] => Some (k, v)
  | _ => None
  end.

(** The value a key is given by its last occurrence in a list of pairs. *)
Fixpoint last_value (k : string) (pairs : list (string * string)) : option string :=
  match pairs with
  | [] => None
  | (k', v) :: rest =>
      match last_value k rest with
      | Some v' => Some v'
      | None => if decide (k' = k) then Some v else None
      end
  end.

(** The events of one worker serving one task. *)
Definition task_trace (t : Task) : list event :=
  [EvDownloadFastq (task_out_dir t) (Some (OneId (task_sample_id t)))
     (task_download_methods t) None;
   EvSubprocess (kingfisher_command (task_sample_id t)
                   (out_dir_parser (task_out_dir t)) (task_download_methods t))].

(** The events of opening the input file, when a path is given. *)
Definition opening (file : option string) : list event :=
  match file with
  | Some (String _ _ as path) => [EvOpen path]
  | _ => []
  end.

(** The deferred calls the generator expression yields for a batch. *)
Definition tasks_for (out_dir : option string) (download_methods : string)
    (batch : list string) : list Task :=
  (λ sample_id, delayed_download_fastq out_dir sample_id download_methods)
    <$> batch.

(** The worker count requested for a batch. *)
Definition effective_workers (use_max_processes : bool) (processes : Z)
    (batch : list string) : Z :=
  if use_max_processes then Z.of_nat (length batch) else processes.

(** What resolution hands to dispatch (identifier resolution, modes (a)
    and (b)): with a file path, the lines of the file with the whitespace
    at both ends removed; without one, the explicit list. *)
Inductive Resolved (w : World) (sample_list : option (list string))
  : option string → list string → Prop :=
| Resolved_file path text :
    path ≠ "" → file_text w path = Ok text →
    Resolved w sample_list (Some path) (Py.strip <$> Py.readlines text)
| Resolved_list file batch :
    Py.truthy file = false → sample_list = Some batch →
    Resolved w sample_list file batch.


(** The identifiers submitted to the pool, request by request. *)
Definition submitted_ids (tr : list event) : list (list string) :=
  (λ req : Z * list Task, task_sample_id <$> req.2) <$> pool_requests tr.

(** The worker counts requested from the pool. *)
Definition requested_workers (tr : list event) : list Z :=
  (λ req : Z * list Task, req.1) <$> pool_requests tr.

(** A sample key the translation service resolves to a run accession. *)
Definition translatable (w : World) (gsm : string) : Prop :=
  ∃ srr, (gsm_to_srr gsm w).2 = Ok srr.

(** The three ways into the orchestration. *)
Inductive entry : Type :=
| Call_download_fastq_parallel (out_dir : option string)
    (sample_list : option (list string)) (download_methods : string)
    (processes : Z) (file : option string) (use_max_processes : bool)
| Call_download_GEO_dataset (GEO_id : string) (out_dir : option string)
    (download_methods : string) (processes : Z) (use_max_processes : bool)
| Call_main (argv : Cli.cmdline).

Definition run_entry (c : entry) : IO unit :=
  match c with
  | Call_download_fastq_parallel out_dir sample_list download_methods processes
      file use_max_processes =>
      download_fastq_parallel out_dir sample_list download_methods processes
        file use_max_processes
  | Call_download_GEO_dataset GEO_id out_dir download_methods processes
      use_max_processes =>
      download_GEO_dataset GEO_id out_dir download_methods processes
        use_max_processes
  | Call_main argv => Cli.main argv
  end.

(** Resolution failures: a path that cannot be opened, a dataset the
    metadata lookup refuses, a sample key the translation refuses (the
    first such key, the ones before it being translated). *)
Inductive resolution_fails (w : World) : entry → exn → Prop :=
| bad_file_path out_dir sample_list download_methods processes path
    use_max_processes e :
    path ≠ "" → file_text w path = Err e →
    resolution_fails w
      (Call_download_fastq_parallel out_dir sample_list download_methods
         processes (Some path) use_max_processes) e
| bad_file_path_main argv args path e :
    Cli.parse_args argv = Ok args → Cli.ns_input_file args = Some path →
    path ≠ "" → file_text w path = Err e →
    resolution_fails w (Call_main argv) e
| lookup_error GEO_id out_dir download_methods processes use_max_processes e :
    get_GEO w GEO_id = Err e →
    resolution_fails w
      (Call_download_GEO_dataset GEO_id out_dir download_methods processes
         use_max_processes) e
| translation_error GEO_id out_dir download_methods processes
    use_max_processes gse translated gsm rest e :
    get_GEO w GEO_id = Ok gse →
    (gsms gse).*1 = translated ++ gsm :: rest →
    Forall (translatable w) translated →
    (gsm_to_srr gsm w).2 = Err e →
    resolution_fails w
      (Call_download_GEO_dataset GEO_id out_dir download_methods processes
         use_max_processes) e.

(** ** A concrete world for examples *)

(** The length of a command in bytes, encoded in UTF-8. *)
Fixpoint utf8_length (s : string) : N :=
  match s with
  | EmptyString => 0
  | String c s' => ((if N_of_ascii c <? 128 then 1 else 2) + utf8_length s')%N
  end.

(** Linux refuses an argument of 128 KiB or more, its NUL included. *)
Definition linux_launch_error (cmd : string) : option exn :=
  if (131071 <? utf8_length cmd)%N
  then Some (OSError "[Errno 7] Argument list too long: '/bin/sh'")
  else None.

Module Demo.

Definition line (s : string) : string := s +:+ String Py.LF "".

(** Four lines: a plain one, one with whitespace at both ends, a blank
    one, and a last one without newline. *)
Definition ids_txt : string :=
  line "SRR001" +:+ line " SRR002 " +:+ line "" +:+ "SRR004".

Definition table (srp srr : string) : DataFrame :=
  {| columns := ["study_accession"; "run_accession"];
     rows := [[srp; srr]] |}.

Definition no_rows : DataFrame :=
  {| columns := ["study_accession"; "run_accession"]; rows := [] |}.

Definition series : GSE :=
  {| gsms := [("GSM1", {| metadata := [] |});
              ("GSM2", {| metadata := [] |});
              ("GSM3", {| metadata := [] |})] |}.

Definition broken_series : GSE :=
  {| gsms := [("GSM1", {| metadata := [] |});
              ("GSM9", {| metadata := [] |})] |}.

Definition world : World :=
  {| file_text := λ path,
       if decide (path = "ids.txt") then Ok ids_txt
       else Err (OSError "No such file or directory");
     get_GEO := λ GEO_id,
       if decide (GEO_id = "GSE1") then Ok series
       else if decide (GEO_id = "GSE2") then Ok broken_series
       else Err (LibraryError "GEOparse");
     sra_metadata := λ gsm,
       if decide (gsm = "GSM1") then Ok (table "SRP1" "SRR1")
       else if decide (gsm = "GSM2") then Ok (table "SRP1" "SRR2")
       else if decide (gsm = "GSM3") then Ok (table "SRP1" "SRR3")
       else Ok no_rows;
     pool_order := reverse;
     pool_fair := reverse_Permutation;
     launch_error := linux_launch_error;
     exit_status := λ _, 0 |}.

End Demo.

(** ** The display helpers *)

(** A GEOparse platform ([GPL]): like a sample, key/value metadata and a
    table. *)
Record GPL : Type := { gpl_metadata : list (string * list string) }.

(** What one [print] call writes to the standard output: a text (the
    arguments joined by single spaces), or the preview of a table,
    [print(x.table.head())], named after the sample or platform [x]. *)
Inductive printed : Type :=
| Text (text : string)
| TableHead (owner : string).

(** [for x in l: body], where the body says whether it ends in [break]. *)
Fixpoint for_loop {A} (body : A → list printed * bool) (l : list A)
  : list printed :=
  match l with
  | [] => []
  | x :: l' =>
      let '(out, break) := body x in
      if break then out else out ++ for_loop body l'
  end.

(** [for key, value in metadata.items(): print(" - %s : %s" % ...)] *)
Definition print_metadata (metadata : list (string * list string))
  : list printed :=
  for_loop (λ '(key, value),
              ([Text (" - " +:+ key +:+ " : " +:+ Py.join ", " value)], false))
    metadata.

Definition show_GSM_info (gse : GSE) : list printed :=
  [Text ""; Text "GSM (sample) info:"] ++
  for_loop (λ '(gsm_name, gsm),
              ([Text ("Name: " +:+ " " +:+ gsm_name); Text "Metadata:"]
               ++ print_metadata (metadata gsm)
               ++ [Text "Table data:"; TableHead gsm_name],
               false))
    (gsms gse).

(** [show_GPL_info] reads [gse.gpls] only; the mapping is its argument
    here, in iteration order. *)
Definition show_GPL_info (gpls : list (string * GPL)) : list printed :=
  [Text ""; Text "GPL (project) info:"] ++
  for_loop (λ '(gpl_name, gpl),
              ([Text ("Name: " +:+ " " +:+ gpl_name); Text "Metadata:"]
               ++ print_metadata (gpl_metadata gpl)
               ++ [Text "Table data:"; TableHead gpl_name],
               true))
    gpls.

(** ** More notions used in the statements *)

(** The table previews of an output, by owner. *)
Definition previews (out : list printed) : list string :=
  omap (λ p, match p with TableHead x => Some x | Text _ => None end) out.

(** The texts of an output. *)
Definition texts (out : list printed) : list string :=
  omap (λ p, match p with Text t => Some t | TableHead _ => None end) out.

(** The same world with other exit statuses for the shell commands. *)
Definition with_exit_status (w : World) (status : string → Z) : World :=
  {| file_text := file_text w;
     get_GEO := get_GEO w;
     sra_metadata := sra_metadata w;
     pool_order := pool_order w;
     pool_fair := pool_fair w;
     launch_error := launch_error w;
     exit_status := status |}.

(** How often a character occurs in a string. *)
Fixpoint count_char (c : ascii) (s : string) : nat :=
  match s with
  | EmptyString => O
  | String d s' => (if Ascii.eqb c d then 1 else 0) + count_char c s'
  end.

(** The files opened by a run. *)
Definition opened (tr : list event) : list string :=
  omap (λ ev, match ev with EvOpen p => Some p | _ => None end) tr.

(** The shell command that serves one identifier. *)
Definition command_for (out_dir : option string) (download_methods : string)
    (sample_id : string) : string :=
  kingfisher_command sample_id (out_dir_parser out_dir) download_methods.

(** The shell command of a task. *)
Definition task_command (t : Task) : string :=
  command_for (task_out_dir t) (task_download_methods t) (task_sample_id t).

(** The command can be started: no NUL character in it, no refusal by
    the system. *)
Definition launches (w : World) (cmd : string) : Prop :=
  has_nul cmd = false ∧ launch_error w cmd = None.

(** What a call of the shell comes to for [download_fastq], which drops
    the exit status. *)
Definition call_outcome (w : World) (cmd : string) : res unit :=
  (λ _, tt) <$> launch w cmd.

(** The workers' run over the tasks in the order they are taken up: it
    ends with the first task whose command cannot be started. *)
Fixpoint run_tasks (w : World) (tasks : list Task) : list event * res unit :=
  match tasks with
  | [] => ([], Ok tt)
  | t :: tasks' =>
      match launch w (task_command t) with
      | Ok _ => (task_trace t ++ (run_tasks w tasks').1, (run_tasks w tasks').2)
      | Err e => (task_trace t, Err e)
      end
  end.

(** What the command line asks for: for each option the value supplied
    last, converted by the option's type, or the declared default. *)
Definition requested (argv : Cli.cmdline) : Cli.Namespace :=
  {| Cli.ns_input_file := Cli.supplied Cli.input_file argv;
     Cli.ns_output_dir := Cli.supplied Cli.output_dir argv;
     Cli.ns_download_methods :=
       default "ena-ascp ena-ftp aws-http prefetch"
         (Cli.supplied Cli.download_methods argv);
     Cli.ns_processes :=
       default 10 (Cli.supplied Cli.processes argv ≫= Cli.py_int);
     Cli.ns_use_max_processes :=
       from_option Cli.py_bool false (Cli.supplied Cli.use_max_processes argv) |}.

(** Some value given to [--processes] is not an integer literal. *)
Definition bad_processes (argv : Cli.cmdline) : Prop :=
  ∃ v, (Cli.processes, v) ∈ argv ∧ Cli.py_int v = None.

Module Demo2.

Definition platforms : list (string * GPL) :=
  [("GPL1", {| gpl_metadata := [("title", ["Illumina"; "HiSeq"])] |});
   ("GPL2", {| gpl_metadata := [] |})].

Definition described : GSE :=
  {| gsms := [("GSM1", {| metadata := [("title", ["liver"]);
                                        ("organism", ["Homo"; "sapiens"])] |});
              ("GSM2", {| metadata := [] |})] |}.

Definition empty_series : GSE := {| gsms := [] |}.

(** A world whose input file is empty and whose dataset has no samples. *)
Definition bare_world : World :=
  {| file_text := λ path,
       if decide (path = "empty.txt") then Ok ""
       else Err (OSError "No such file or directory");
     get_GEO := λ GEO_id,
       if decide (GEO_id = "GSE0") then Ok empty_series
       else Err (LibraryError "GEOparse");
     sra_metadata := λ _, Err (LibraryError "pysradb");
     pool_order := id;
     pool_fair := λ tasks, reflexivity tasks;
     launch_error := linux_launch_error;
     exit_status := λ _, 1 |}.

(** A world with the same two identifiers in two files, the second of
    which ends in a newline. *)
Definition two_files : World :=
  {| file_text := λ path,
       if decide (path = "a.txt") then Ok (Demo.line "SRR1" +:+ "SRR2")
       else if decide (path = "b.txt")
            then Ok (Demo.line "SRR1" +:+ Demo.line "SRR2")
            else Err (OSError "No such file or directory");
     get_GEO := λ _, Err (LibraryError "GEOparse");
     sra_metadata := λ _, Err (LibraryError "pysradb");
     pool_order := id;
     pool_fair := λ tasks, reflexivity tasks;
     launch_error := linux_launch_error;
     exit_status := λ _, 0 |}.

(** A dataset whose first sample key has no run in the archive. *)
Definition unarchived_first : GSE :=
  {| gsms := [("GSM9", {| metadata := [] |});
              ("GSM1", {| metadata := [] |});
              ("GSM2", {| metadata := [] |})] |}.

(** The archive of [Demo.world], with that dataset as [GSE3]. *)
Definition archive_world : World :=
  {| file_text := file_text Demo.world;
     get_GEO := λ GEO_id,
       if decide (GEO_id = "GSE3") then Ok unarchived_first
       else get_GEO Demo.world GEO_id;
     sra_metadata := sra_metadata Demo.world;
     pool_order := id;
     pool_fair := λ tasks, reflexivity tasks;
     launch_error := linux_launch_error;
     exit_status := λ _, 0 |}.

End Demo2.

(** Case analysis on what a command line supplies. *)
Ltac destruct_supplied argv :=
  destruct (Cli.supplied Cli.input_file argv),
    (Cli.supplied Cli.output_dir argv),
    (Cli.supplied Cli.download_methods argv),
    (Cli.supplied Cli.use_max_processes argv).

(** * Results *)

(** ** The result monad *)

Lemma res_bind_Ok {A B} (m : res A) (k : A → res B) b :
  m ≫= k = Ok b ↔ ∃ a, m = Ok a ∧ k a = Ok b.
Proof.
  destruct m as [a|e]; simpl; split.
  - intros H. by exists a.
  - by intros (a' & [= <-] & H).
  - discriminate.
  - by intros (a' & [=] & _).
Qed.

Lemma res_Ok_or_raises {A} (m : res A) : (∃ a, m = Ok a) ∨ raises m.
Proof. destruct m as [a|e]; [left | right]; eauto. by exists e. Qed.

Lemma res_raises_not_Ok {A} (m : res A) : raises m ↔ ∀ a, m ≠ Ok a.
Proof.
  split.
  - intros [e ->] a. discriminate.
  - intros H. destruct m as [a|e]; [by destruct (H a) | by exists e].
Qed.

Lemma mapM_res_Ok {A B} (f : A → res B) l ys :
  mapM f l = Ok ys ↔ Forall2 (λ x y, f x = Ok y) l ys.
Proof.
  revert ys. induction l as [|x l IH]; intros ys; simpl.
  - split; [intros [= <-]; constructor | by inversion 1].
  - rewrite res_bind_Ok. split.
    + intros (y & Hy & H). apply res_bind_Ok in H as (ys' & Hys & [= <-]).
      constructor; [done | by apply IH].
    + inversion 1 as [|? y ? ys' Hy Hys]; subst. exists y. split; [done |].
      apply res_bind_Ok. exists ys'. split; [by apply IH | done].
Qed.

(** ** [list_to_dict] *)

Lemma unpack2_Ok parts k v : unpack2 parts = Ok (k, v) ↔ parts = [k; v].
Proof.
  split; [| by intros ->].
  destruct parts as [|a [|b [|c parts]]]; simpl; try discriminate.
  by intros [= -> ->].
Qed.

Lemma binding_of_Some sep s k v :
  binding_of sep s = Some (k, v) ↔ Py.split s sep = Ok [k; v].
Proof.
  unfold binding_of. split.
  - destruct (Py.split s sep) as [[|a [|b [|c parts]]]|e]; try discriminate.
    by intros [= -> ->].
  - by intros ->.
Qed.

Lemma dict_comprehension_Ok d parts d' :
  dict_comprehension d parts = Ok d' →
  ∃ kvs, parts = (λ kv, [kv.1; kv.2]) <$> kvs ∧
         d' = foldl (λ m kv, <[kv.1 := kv.2]> m) d kvs.
Proof.
  revert d. induction parts as [|p parts IH]; intros d; simpl.
  - intros [= <-]. by exists [].
  - intros H. apply res_bind_Ok in H as ([k v] & Hp & H).
    apply unpack2_Ok in Hp as ->. apply IH in H as (kvs & -> & ->).
    by exists ((k, v) :: kvs).
Qed.

Lemma dict_comprehension_total d kvs :
  dict_comprehension d ((λ kv, [kv.1; kv.2]) <$> kvs)
  = Ok (foldl (λ m kv, <[kv.1 := kv.2]> m) d kvs).
Proof.
  revert d. induction kvs as [|[k v] kvs IH]; intros d; simpl; [done |].
  apply IH.
Qed.

Lemma foldl_insert_lookup (d : gmap string string) kvs k :
  foldl (λ m kv, <[kv.1 := kv.2]> m) d kvs !! k
  = match last_value k kvs with Some v => Some v | None => d !! k end.
Proof.
  revert d. induction kvs as [|[k' v] kvs IH]; intros d; simpl; [done |].
  rewrite IH. destruct (last_value k kvs); [done |].
  rewrite lookup_insert. by destruct (decide (k' = k)).
Qed.

(** A successful run read one pair off every string, in order. *)
Lemma list_to_dict_Ok l sep d :
  list_to_dict l sep = Ok d ↔
  ∃ kvs, Forall2 (λ s kv, binding_of sep s = Some kv) l kvs ∧
         d = foldl (λ m kv, <[kv.1 := kv.2]> m) ∅ kvs.
Proof.
  unfold list_to_dict. rewrite res_bind_Ok. split.
  - intros (parts & Hparts & Hd).
    apply dict_comprehension_Ok in Hd as (kvs & -> & ->).
    exists kvs. split; [| done].
    apply mapM_res_Ok in Hparts. apply Forall2_fmap_r in Hparts.
    eapply Forall2_impl; [exact Hparts |].
    intros s [k v] Hs. by apply binding_of_Some.
  - intros (kvs & Hl & ->). exists ((λ kv, [kv.1; kv.2]) <$> kvs).
    split; [| apply dict_comprehension_total].
    apply mapM_res_Ok, Forall2_fmap_r.
    eapply Forall2_impl; [exact Hl |].
    intros s [k v] Hs. by apply binding_of_Some.
Qed.

Lemma Forall2_binding_omap sep l kvs :
  Forall2 (λ s kv, binding_of sep s = Some kv) l kvs →
  omap (binding_of sep) l = kvs.
Proof.
  induction 1 as [|s kv l kvs Hs _ IH]; [done |].
  cbn. rewrite Hs. by f_equal.
Qed.

Lemma Forall_binding_Forall2 sep l :
  Forall (λ s, is_Some (binding_of sep s)) l →
  ∃ kvs, Forall2 (λ s kv, binding_of sep s = Some kv) l kvs.
Proof.
  induction 1 as [|s l [kv Hs] _ [kvs IH]]; [by exists [] |].
  exists (kv :: kvs). by constructor.
Qed.

Lemma binding_all_or_missing sep l :
  Forall (λ s, is_Some (binding_of sep s)) l
  ∨ ∃ s, s ∈ l ∧ binding_of sep s = None.
Proof.
  induction l as [|s l [IH|(s' & Hs' & Hnone)]].
  - left. constructor.
  - destruct (binding_of sep s) as [kv|] eqn:E.
    + left. constructor; [by exists kv | done].
    + right. exists s. split; [left | done].
  - right. exists s'. split; [by right | done].
Qed.

(** C10. [list_to_dict] raises exactly when some input string does not
    split on the separator into exactly two parts, and what it raises is
    a [ValueError]; when it returns, every key is bound to the value of
    its last occurrence among the input strings, duplicates raising
    nothing. *)
Theorem list_to_dict_contract (l : list string) (sep : string) :
  (raises (list_to_dict l sep) ↔ ∃ s, s ∈ l ∧ binding_of sep s = None) ∧
  (∀ e, list_to_dict l sep = Err e → ∃ msg, e = ValueError msg) ∧
  (∀ d, list_to_dict l sep = Ok d →
        ∀ k, d !! k = last_value k (omap (binding_of sep) l)).
Proof.
  split; [| split].
  - rewrite res_raises_not_Ok. split.
    + intros Hno. destruct (binding_all_or_missing sep l) as [Hall|]; [| done].
      destruct (Forall_binding_Forall2 sep l Hall) as [kvs Hkvs].
      destruct (Hno (foldl (λ m kv, <[kv.1 := kv.2]> m) ∅ kvs)).
      apply list_to_dict_Ok. by exists kvs.
    + intros (s & Hs & Hnone) d Hd.
      apply list_to_dict_Ok in Hd as (kvs & Hkvs & _).
      apply list_elem_of_lookup in Hs as [i Hi].
      destruct (Forall2_lookup_l _ _ _ _ _ Hkvs Hi) as (kv & _ & Hkv).
      congruence.
  - unfold list_to_dict. intros e He.
    destruct (mapM _ l) as [parts|e'] eqn:Hparts; simpl in He.
    + clear Hparts. revert He. generalize (∅ : gmap string string).
      induction parts as [|p parts IH]; intros d; simpl; [discriminate |].
      destruct p as [|a [|b [|c p]]]; simpl; try (intros [= <-]; eauto; fail).
      apply IH.
    + injection He as ->. clear -Hparts. revert e Hparts.
      induction l as [|s l IH]; intros e; simpl; [discriminate |].
      destruct (Py.split s sep) as [ps|e'] eqn:Hs; simpl.
      * destruct (mapM _ l) as [pss|e'']; simpl; [discriminate |].
        intros [= <-]. by apply IH.
      * intros [= <-]. unfold Py.split in Hs.
        destruct sep; [injection Hs as <-; eauto | discriminate].
  - intros d Hd k. apply list_to_dict_Ok in Hd as (kvs & Hkvs & ->).
    rewrite foldl_insert_lookup, lookup_empty.
    rewrite (Forall2_binding_omap _ _ _ Hkvs). by destruct (last_value k kvs).
Qed.

Lemma list_to_dict_contract_witness :
  list_to_dict ["a:1"; "b:2"; "a:3"] ":" = Ok (<["a":="3"]> (<["b":="2"]> ∅))
  ∧ (<["a":="3"]> (<["b":="2"]> ∅) : gmap string string) !! "a" = Some "3"
  ∧ ∃ msg, list_to_dict ["a:1"; "b"] ":" = Err (ValueError msg).
Proof.
  assert (H1 : list_to_dict ["a:1"; "b:2"; "a:3"] ":"
               = Ok (<["a":="3"]> (<["b":="2"]> ∅))) by (vm_compute; reflexivity).
  split; [exact H1 | split].
  - rewrite (proj2 (proj2 (list_to_dict_contract ["a:1"; "b:2"; "a:3"] ":"))
               _ H1 "a").
    vm_compute. reflexivity.
  - destruct (proj1 (proj2 (list_to_dict_contract ["a:1"; "b"] ":"))
                (ValueError "not enough values to unpack")) as [msg Hmsg].
    + vm_compute. reflexivity.
    + exists msg. vm_compute. by rewrite <- Hmsg.
Defined.

(** ** The monad of effects *)

Lemma IO_bind_run {A B} (m : IO A) (k : A → IO B) w :
  (m ≫= k) w
  = match m w with
    | (t1, Ok a) => (t1 ++ (k a w).1, (k a w).2)
    | (t1, Err e) => (t1, Err e)
    end.
Proof.
  unfold mbind, IO_bind. destruct (m w) as [t1 [a|e]]; [| done].
  by destruct (k a w).
Qed.

Lemma IO_bind_Ok {A B} (m : IO A) (k : A → IO B) w t a :
  m w = (t, Ok a) → (m ≫= k) w = (t ++ (k a w).1, (k a w).2).
Proof. intros H. by rewrite IO_bind_run, H. Qed.

Lemma IO_bind_Err {A B} (m : IO A) (k : A → IO B) w t e :
  m w = (t, Err e) → (m ≫= k) w = (t, Err e).
Proof. intros H. by rewrite IO_bind_run, H. Qed.

(** ** Strings *)

Lemma startswith_app p r : Py.startswith p (p +:+ r) = true.
Proof.
  induction p as [|c p IH]; simpl; [done |].
  by rewrite Ascii.eqb_refl.
Qed.






Lemma append_cons c a r : String c a +:+ r = String c (a +:+ r).
Proof. reflexivity. Qed.

Lemma append_nil r : "" +:+ r = r.
Proof. reflexivity. Qed.

Lemma string_length_append a r :
  String.length (a +:+ r) = (String.length a + String.length r)%nat.
Proof. induction a as [|c a IH]; simpl; [done | by rewrite IH]. Qed.

(** [lstrip] cuts a run of whitespace off the front, and all of it. *)
Lemma lstrip_spec s :
  (∃ a, s = a +:+ Py.lstrip s ∧ Py.all_space a = true)
  ∧ Py.starts_with_space (Py.lstrip s) = false.
Proof.
  induction s as [|c s [(a & Ha & Hspace) IH]]; simpl.
  - split; [by exists "" | done].
  - destruct (Py.isspace c) eqn:Hc.
    + split; [| done]. exists (String c a). simpl. rewrite Hc, Hspace.
      split; [by rewrite append_cons, <- Ha | done].
    + split; [by exists "" | by simpl].
Qed.

(** [rstrip] cuts a run of whitespace off the back, and all of it. *)
Lemma rstrip_spec s :
  (∃ b, s = Py.rstrip s +:+ b ∧ Py.all_space b = true)
  ∧ Py.ends_with_space (Py.rstrip s) = false.
Proof.
  induction s as [|c s [(b & Hb & Hspace) IH]]; simpl.
  - split; [by exists "" | done].
  - destruct (Py.rstrip s) as [|d r] eqn:Hr.
    + destruct (Py.isspace c) eqn:Hc.
      * rewrite append_nil in Hb. subst b.
        split; [| done]. exists (String c s). simpl. by rewrite Hc, Hspace.
      * rewrite append_nil in Hb. subst b.
        split; [| by simpl]. exists s. by rewrite append_cons, append_nil.
    + split; [| exact IH]. exists b. split; [| done].
      by rewrite append_cons, <- Hb.
Qed.

(** What [rstrip] leaves starts the way the string did. *)
Lemma rstrip_head s :
  Py.starts_with_space s = false → Py.starts_with_space (Py.rstrip s) = false.
Proof.
  destruct s as [|c s]; simpl; [done |]. intros Hc.
  destruct (Py.rstrip s); [by rewrite Hc | done].
Qed.

(** [strip] removes the whitespace at both ends and nothing else. *)
Lemma strip_spec s :
  (∃ a b, s = a +:+ Py.strip s +:+ b
          ∧ Py.all_space a = true ∧ Py.all_space b = true)
  ∧ Py.starts_with_space (Py.strip s) = false
  ∧ Py.ends_with_space (Py.strip s) = false.
Proof.
  unfold Py.strip.
  destruct (lstrip_spec s) as [(a & Ha & Hspace) Hhead].
  destruct (rstrip_spec (Py.lstrip s)) as [(b & Hb & Hspace') Htail].
  split; [| split; [by apply rstrip_head | done]].
  exists a, b. split; [| done]. by rewrite <- Hb.
Qed.

Lemma startswith_inv p s : Py.startswith p s = true → ∃ r, s = p +:+ r.
Proof.
  revert s. induction p as [|a p IH]; intros s; simpl; [by exists s |].
  destruct s as [|b s]; [done |].
  destruct (Ascii.eqb_spec a b) as [->|_]; [| done].
  intros H. destruct (IH s H) as [r ->]. by exists r.
Qed.

Lemma split_from_skip sep a r :
  Py.split_from sep (String.length a) (a +:+ r) = Py.split_from sep 0 r.
Proof.
  induction a as [|c a IH]; simpl; [by destruct r | exact IH].
Qed.

Lemma split_from_nonempty sep skip s : Py.split_from sep skip s ≠ [].
Proof.
  revert skip. induction s as [|c s IH]; intros skip; simpl; [done |].
  destruct skip; [| apply IH].
  destruct (Py.startswith sep (String c s)); [done |].
  by destruct (Py.split_from sep 0 s).
Qed.

Lemma join_cons_head sep c p ps :
  Py.join sep (String c p :: ps) = String c (Py.join sep (p :: ps)).
Proof. by destruct ps. Qed.

(** Joining the pieces of a split with the separator gives the string
    back. *)
Lemma split_join s sep pieces :
  Py.split s sep = Ok pieces → Py.join sep pieces = s.
Proof.
  unfold Py.split. destruct sep as [|a sep]; [done |]. intros [= <-].
  remember (String.length s) as n eqn:Hn.
  assert (Hle : (String.length s ≤ n)%nat) by lia. clear Hn.
  revert s Hle. induction n as [|n IH]; intros s Hle.
  - destruct s; [done | simpl in Hle; lia].
  - destruct s as [|c s]; [done |].
    change (Py.split_from (String a sep) 0 (String c s))
      with (if Py.startswith (String a sep) (String c s)
            then "" :: Py.split_from (String a sep) (String.length sep) s
            else match Py.split_from (String a sep) 0 s with
                 | [] => [String c ""]
                 | p :: ps => String c p :: ps
                 end).
    destruct (Py.startswith (String a sep) (String c s)) eqn:Hstart.
    + apply startswith_inv in Hstart as [r Hr]. injection Hr as -> ->.
      rewrite split_from_skip.
      assert (Hr : (String.length r ≤ n)%nat).
      { simpl in Hle. rewrite string_length_append in Hle. lia. }
      specialize (IH r Hr).
      pose proof (split_from_nonempty (String a sep) 0 r) as Hne.
      destruct (Py.split_from (String a sep) 0 r) as [|p ps]; [done |].
      change (String a sep +:+ Py.join (String a sep) (p :: ps)
              = String a (sep +:+ r)).
      by rewrite IH.
    + assert (Hs : (String.length s ≤ n)%nat) by (simpl in Hle; lia).
      specialize (IH s Hs).
      pose proof (split_from_nonempty (String a sep) 0 s) as Hne.
      destruct (Py.split_from (String a sep) 0 s) as [|p ps]; [done |].
      by rewrite join_cons_head, IH.
Qed.




(** ** [download_fastq] *)

Lemma launch_Ok w cmd : (∃ status, launch w cmd = Ok status) ↔ launches w cmd.
Proof.
  unfold launch, launches. destruct (has_nul cmd).
  - split; [by intros [? ?] | by intros [? _]].
  - destruct (launch_error w cmd) as [e|].
    + split; [by intros [? ?] | by intros [_ ?]].
    + split; [done | by eexists].
Qed.

Lemma call_outcome_Ok w cmd : call_outcome w cmd = Ok tt ↔ launches w cmd.
Proof.
  rewrite <- launch_Ok. unfold call_outcome.
  destruct (launch w cmd) as [status|e]; simpl.
  - split; [by eexists | done].
  - split; [done | by intros [? ?]].
Qed.

Lemma call_outcome_Err w cmd e :
  call_outcome w cmd = Err e ↔ launch w cmd = Err e.
Proof.
  unfold call_outcome. destruct (launch w cmd) as [status|e']; simpl.
  - split; discriminate.
  - split; by intros [= ->].
Qed.

(** Without a file: the call event, then one call of the shell, whose
    launch decides the outcome. *)
Lemma download_fastq_no_file_run w out_dir sample_ids download_methods :
  download_fastq out_dir sample_ids download_methods None w
  = ([EvDownloadFastq out_dir sample_ids download_methods None;
      EvSubprocess (kingfisher_command (format_ids sample_ids)
                      (out_dir_parser out_dir) download_methods)],
     call_outcome w (kingfisher_command (format_ids sample_ids)
                       (out_dir_parser out_dir) download_methods)).
Proof.
  unfold download_fastq, call_outcome.
  rewrite (IO_bind_Ok _ _ w
             [EvDownloadFastq out_dir sample_ids download_methods None] tt)
    by done.
  rewrite (IO_bind_Ok _ _ w [] sample_ids) by done.
  rewrite IO_bind_run. unfold subprocess_call.
  by destruct (launch w _).
Qed.

(** One call for one identifier. *)
Lemma download_fastq_run w out_dir sample_id download_methods :
  download_fastq out_dir (Some (OneId sample_id)) download_methods None w
  = ([EvDownloadFastq out_dir (Some (OneId sample_id)) download_methods None;
      EvSubprocess (kingfisher_command sample_id (out_dir_parser out_dir)
                      download_methods)],
     call_outcome w (kingfisher_command sample_id (out_dir_parser out_dir)
                       download_methods)).
Proof. apply download_fastq_no_file_run. Qed.


Lemma has_nul_app a b : has_nul (a +:+ b) = has_nul a || has_nul b.
Proof.
  induction a as [|c a IH]; [done |]. rewrite append_cons. simpl.
  by rewrite IH, orb_assoc.
Qed.

(** C6, as stated, fails on an identifier that holds a NUL character:
    the command is built and handed to the shell call, but nothing is
    executed; the call raises [ValueError]. *)
Lemma download_fastq_nul_counterexample :
  commands (download_fastq None (Some (OneId (String "000"%char "SRR001")))
              "ena-ftp" None Demo.world).1
  = [kingfisher_command (String "000"%char "SRR001") "" "ena-ftp"]
  ∧ (download_fastq None (Some (OneId (String "000"%char "SRR001")))
       "ena-ftp" None Demo.world).2
    = Err (ValueError "embedded null byte").
Proof. split; vm_compute; reflexivity. Qed.



(** ** Identifier translation *)

Lemma column_index_Some col cols j :
  column_index col cols = Some j → cols !! j = Some col.
Proof.
  revert j. induction cols as [|c cols IH]; intros j; simpl; [done |].
  destruct (decide (c = col)) as [->|_].
  - by intros [= <-].
  - destruct (column_index col cols) as [j'|]; simpl; [| done].
    intros [= <-]. by apply IH.
Qed.

Lemma column_index_None col cols : column_index col cols = None ↔ col ∉ cols.
Proof.
  induction cols as [|c cols IH]; simpl.
  - split; [intros _; apply not_elem_of_nil | done].
  - destruct (decide (c = col)) as [->|Hne].
    + split; [done | intros []; left].
    + rewrite not_elem_of_cons. destruct (column_index col cols); simpl.
      * split; [done |]. intros [_ H]. by apply IH in H.
      * split; [| done]. intros _. split; [done | by apply IH].
Qed.

Lemma column_index_lt col cols j :
  column_index col cols = Some j → (j < length cols)%nat.
Proof. intros H. apply column_index_Some in H. by eapply lookup_lt_Some. Qed.

(** [df.at[0, col]] on a frame: the cell of the first row in the first
    column of that name; a [KeyError] without rows or without the column. *)
Lemma at_first_row df col :
  well_formed df →
  match rows df, column_index col (columns df) with
  | r :: _, Some j => ∃ v, r !! j = Some v ∧ at_0 df col = Ok v
  | _, _ => ∃ key, at_0 df col = Err (KeyError key)
  end.
Proof.
  intros Hwf. unfold at_0.
  destruct (column_index col (columns df)) as [j|] eqn:Hj.
  - destruct (rows df) as [|r rest] eqn:Hrows; simpl; [by eexists |].
    unfold well_formed in Hwf. rewrite Hrows in Hwf.
    apply Forall_cons in Hwf as [Hr _].
    apply column_index_lt in Hj. rewrite <- Hr in Hj.
    destruct (lookup_lt_is_Some_2 r j Hj) as [v Hv]. exists v. by rewrite Hv.
  - destruct (rows df); by eexists.
Qed.

(** C7. For one sample accession whose metadata the service returns as a
    table, [gsm_to_srr] and [gsm_to_srp] query the service once and return
    the [run_accession], respectively [study_accession], cell of the first
    row; when the table has no rows or lacks that column the lookup raises
    a [KeyError], which nothing catches. *)
Theorem gsm_translation_first_row (w : World) (gsm : string) (df : DataFrame)
    (Hdf : sra_metadata w gsm = Ok df) (Hwf : well_formed df) :
  (gsm_to_srr gsm w).1 = [EvSraMetadata gsm] ∧
  (gsm_to_srp gsm w).1 = [EvSraMetadata gsm] ∧
  (∀ r rest j, rows df = r :: rest →
     (column_index "run_accession" (columns df) = Some j →
      ∃ v, r !! j = Some v ∧ (gsm_to_srr gsm w).2 = Ok v) ∧
     (column_index "study_accession" (columns df) = Some j →
      ∃ v, r !! j = Some v ∧ (gsm_to_srp gsm w).2 = Ok v)) ∧
  (rows df = [] →
     (∃ key, (gsm_to_srr gsm w).2 = Err (KeyError key)) ∧
     (∃ key, (gsm_to_srp gsm w).2 = Err (KeyError key))) ∧
  ("run_accession" ∉ columns df →
     ∃ key, (gsm_to_srr gsm w).2 = Err (KeyError key)) ∧
  ("study_accession" ∉ columns df →
     ∃ key, (gsm_to_srp gsm w).2 = Err (KeyError key)).
Proof.
  unfold gsm_to_srr, gsm_to_srp. simpl. rewrite Hdf. simpl.
  pose proof (at_first_row df "run_accession" Hwf) as Hrun.
  pose proof (at_first_row df "study_accession" Hwf) as Hstudy.
  split; [done | split; [done |]].
  split; [| split; [| split]].
  - intros r rest j Hrows. rewrite Hrows in Hrun, Hstudy. split.
    + intros Hj. by rewrite Hj in Hrun.
    + intros Hj. by rewrite Hj in Hstudy.
  - intros Hrows. rewrite Hrows in Hrun, Hstudy. by split.
  - intros Hcol. apply column_index_None in Hcol. rewrite Hcol in Hrun.
    by destruct (rows df).
  - intros Hcol. apply column_index_None in Hcol. rewrite Hcol in Hstudy.
    by destruct (rows df).
Qed.

Lemma gsm_translation_first_row_witness :
  (gsm_to_srr "GSM2" Demo.world).2 = Ok "SRR2"
  ∧ (gsm_to_srp "GSM2" Demo.world).2 = Ok "SRP1"
  ∧ ∃ key, (gsm_to_srr "GSM9" Demo.world).2 = Err (KeyError key).
Proof.
  assert (Hwf : well_formed (Demo.table "SRP1" "SRR2")).
  { repeat constructor. }
  assert (Hwf' : well_formed Demo.no_rows) by constructor.
  destruct (gsm_translation_first_row Demo.world "GSM2" _ eq_refl Hwf)
    as (_ & _ & Hfirst & _).
  destruct (Hfirst _ _ 1%nat eq_refl) as [Hrun _].
  destruct (Hfirst _ _ 0%nat eq_refl) as [_ Hstudy].
  destruct (Hrun eq_refl) as (v & [= <-] & Hv).
  destruct (Hstudy eq_refl) as (v' & [= <-] & Hv').
  split; [exact Hv | split; [exact Hv' |]].
  destruct (gsm_translation_first_row Demo.world "GSM9" _ eq_refl Hwf')
    as (_ & _ & _ & Hnone & _).
  exact (proj1 (Hnone eq_refl)).
Defined.

(** ** The pool *)

Lemma IO_bind_mret {A B} (m : IO A) (h : A → B) w :
  (m ≫= λ a, mret (h a)) w = ((m w).1, h <$> (m w).2).
Proof.
  rewrite IO_bind_run. destruct (m w) as [t [a|e]]; simpl; [| done].
  by rewrite app_nil_r.
Qed.

Lemma run_task_run w t :
  run_task t w = (task_trace t, call_outcome w (task_command t)).
Proof.
  unfold run_task, task_trace, task_command, command_for.
  apply download_fastq_run.
Qed.

(** The workers' run is the run of the tasks one after the other. *)
Lemma mapM_run_task w ts :
  (mapM run_task ts w).1 = (run_tasks w ts).1 ∧
  (λ _, tt) <$> (mapM run_task ts w).2 = (run_tasks w ts).2.
Proof.
  induction ts as [|t ts [IH1 IH2]]; [done |].
  change (mapM run_task (t :: ts))
    with (run_task t ≫= λ y, mapM run_task ts ≫= λ k, mret (y :: k)).
  rewrite IO_bind_run, run_task_run. unfold call_outcome.
  cbn [run_tasks].
  destruct (launch w (task_command t)) as [status|e]; cbn [fmap res_fmap];
    [| done].
  rewrite IO_bind_mret. cbn [fst snd]. rewrite IH1. split; [done |].
  rewrite <- IH2. by destruct ((mapM run_task ts w).2).
Qed.

Lemma Parallel_run w n_jobs tasks :
  n_jobs ≠ 0 →
  Parallel n_jobs tasks w
  = (EvParallel n_jobs tasks :: (run_tasks w (pool_order w tasks)).1,
     (run_tasks w (pool_order w tasks)).2).
Proof.
  intros Hn. unfold Parallel.
  rewrite (IO_bind_Ok _ _ w [EvParallel n_jobs tasks] tt) by done.
  apply Z.eqb_neq in Hn. rewrite Hn.
  rewrite (IO_bind_Ok _ _ w [] (pool_order w)) by done.
  rewrite (IO_bind_mret (mapM run_task (pool_order w tasks)) (λ _, tt)).
  by destruct (mapM_run_task w (pool_order w tasks)) as [-> ->].
Qed.

Lemma Parallel_run_zero w tasks :
  Parallel 0 tasks w
  = ([EvParallel 0 tasks],
     Err (ValueError "n_jobs == 0 in Parallel has no meaning")).
Proof. reflexivity. Qed.

(** The tasks served are the first taken up. *)
Lemma run_tasks_taken w ts :
  ∃ k, (run_tasks w ts).1 = take k ts ≫= task_trace.
Proof.
  induction ts as [|t ts [k IH]]; [by exists O |]. cbn [run_tasks].
  destruct (launch w (task_command t)) as [status|e]; cbn [fst].
  - exists (S k). by rewrite IH.
  - exists 1%nat. change (task_trace t = task_trace t ++ []).
    by rewrite app_nil_r.
Qed.

(** When every command can be started, every task is served. *)
Lemma run_tasks_launch w ts :
  Forall (λ t, launches w (task_command t)) ts →
  run_tasks w ts = (ts ≫= task_trace, Ok tt).
Proof.
  induction 1 as [|t ts Ht _ IH]; [done |]. cbn [run_tasks].
  apply launch_Ok in Ht as [status ->]. by rewrite IH.
Qed.




(** With a count other than 0 and commands that can all be started,
    every task is served. *)
Lemma Parallel_launch w n_jobs tasks :
  n_jobs ≠ 0 →
  Forall (λ t, launches w (task_command t)) tasks →
  Parallel n_jobs tasks w
  = (EvParallel n_jobs tasks :: (pool_order w tasks ≫= task_trace), Ok tt).
Proof.
  intros Hn Hall. rewrite Parallel_run by done.
  rewrite run_tasks_launch; [done |]. by rewrite (pool_fair w tasks).
Qed.




Lemma pool_requests_task_traces ts : pool_requests (ts ≫= task_trace) = [].
Proof. induction ts as [|t ts IH]; [done | exact IH]. Qed.

(** The pool request always opens the trace of the pool. *)
Lemma Parallel_requests w n_jobs tasks :
  pool_requests (Parallel n_jobs tasks w).1 = [(n_jobs, tasks)].
Proof.
  destruct (decide (n_jobs = 0)) as [->|Hn]; [done |].
  rewrite Parallel_run by done. cbn [fst].
  destruct (run_tasks_taken w (pool_order w tasks)) as [k ->].
  change (pool_requests (EvParallel n_jobs tasks :: ?l))
    with ((n_jobs, tasks) :: pool_requests l).
  by rewrite pool_requests_task_traces.
Qed.




(** ** [download_fastq_parallel] *)

(** With a resolved batch the run is: open the file if one is named, then
    the pool on one task per identifier. *)
Lemma download_fastq_parallel_resolved w out_dir sample_list download_methods
    processes file use_max_processes batch :
  Resolved w sample_list file batch →
  download_fastq_parallel out_dir sample_list download_methods processes file
    use_max_processes w
  = let pool :=
      Parallel (effective_workers use_max_processes processes batch)
        (tasks_for out_dir download_methods batch) w in
    (opening file ++ pool.1, pool.2).
Proof.
  intros Hres. unfold download_fastq_parallel, effective_workers.
  destruct Hres as [path text Hpath Htext | file batch Hfile ->].
  - destruct path as [|c path]; [done |].
    erewrite IO_bind_Ok; cycle 1.
    { erewrite IO_bind_Ok; cycle 1.
      { unfold open_readlines. rewrite Htext. reflexivity. }
      simpl. reflexivity. }
    destruct use_max_processes; simpl.
    + erewrite IO_bind_Ok by reflexivity. simpl.
      erewrite IO_bind_Ok by reflexivity. simpl.
      by rewrite length_fmap.
    + erewrite IO_bind_Ok by reflexivity. simpl.
      erewrite IO_bind_Ok by reflexivity. done.
  - assert (Hop : opening file = []) by (by destruct file as [[|??]|]).
    rewrite Hop.
    erewrite IO_bind_Ok; cycle 1.
    { by destruct file as [[|??]|]. }
    destruct use_max_processes; simpl.
    + erewrite IO_bind_Ok by reflexivity. simpl.
      erewrite IO_bind_Ok by reflexivity. done.
    + erewrite IO_bind_Ok by reflexivity. simpl.
      erewrite IO_bind_Ok by reflexivity. done.
Qed.

Lemma pool_requests_app a b :
  pool_requests (a ++ b) = pool_requests a ++ pool_requests b.
Proof. apply omap_app. Qed.

Lemma invocations_app a b : invocations (a ++ b) = invocations a ++ invocations b.
Proof. apply omap_app. Qed.

Lemma commands_app a b : commands (a ++ b) = commands a ++ commands b.
Proof. apply omap_app. Qed.


Lemma pool_requests_opening file : pool_requests (opening file) = [].
Proof. by destruct file as [[|??]|]. Qed.

Lemma invocations_opening file : invocations (opening file) = [].
Proof. by destruct file as [[|??]|]. Qed.

(** A resolved batch reaches the pool as one request. *)
Lemma download_fastq_parallel_requests w out_dir sample_list download_methods
    processes file use_max_processes batch :
  Resolved w sample_list file batch →
  pool_requests
    (download_fastq_parallel out_dir sample_list download_methods processes file
       use_max_processes w).1
  = [(effective_workers use_max_processes processes batch,
      tasks_for out_dir download_methods batch)].
Proof.
  intros Hres. rewrite (download_fastq_parallel_resolved _ _ _ _ _ _ _ _ Hres).
  cbv zeta. simpl fst.
  by rewrite pool_requests_app, pool_requests_opening, Parallel_requests.
Qed.

Lemma demo_file_resolved sample_list :
  Resolved Demo.world sample_list (Some "ids.txt")
    ["SRR001"; "SRR002"; ""; "SRR004"].
Proof. by apply (Resolved_file Demo.world sample_list "ids.txt" Demo.ids_txt). Qed.




(** C3. For every resolved batch of size N and every requested count P,
    the worker count handed to the pool is N when [use_max_processes] is
    set, whatever P is, and exactly P when it is not set, whatever N is. *)
Theorem worker_count_requested (w : World) (out_dir : option string)
    (sample_list : option (list string)) (download_methods : string)
    (processes : Z) (file : option string) (use_max_processes : bool)
    (batch : list string) (Hres : Resolved w sample_list file batch) :
  requested_workers
    (download_fastq_parallel out_dir sample_list download_methods processes
       file use_max_processes w).1
  = [if use_max_processes then Z.of_nat (length batch) else processes].
Proof.
  unfold requested_workers.
  by rewrite (download_fastq_parallel_requests _ _ _ _ _ _ _ _ Hres).
Qed.

Lemma worker_count_requested_witness :
  requested_workers
    (download_fastq_parallel None None "ena-ftp" 2 (Some "ids.txt") true
       Demo.world).1 = [4]
  ∧ requested_workers
      (download_fastq_parallel None None "ena-ftp" 10 (Some "ids.txt") false
         Demo.world).1 = [10].
Proof.
  split.
  - exact (worker_count_requested Demo.world None None "ena-ftp" 2
             (Some "ids.txt") true _ (demo_file_resolved None)).
  - exact (worker_count_requested Demo.world None None "ena-ftp" 10
             (Some "ids.txt") false _ (demo_file_resolved None)).
Defined.

(** ** Resolution from a file *)

Lemma readlines_nil text : Py.readlines text = [] ↔ text = "".
Proof.
  destruct text as [|c text]; simpl; [done |]. split; [| done].
  destruct (Ascii.eqb c Py.LF); [done |]. by destruct (Py.readlines text).
Qed.

(** The lines of a text, put end to end, are the text. *)
Lemma readlines_concat text : foldr String.append "" (Py.readlines text) = text.
Proof.
  induction text as [|c text IH]; simpl; [done |].
  destruct (Ascii.eqb c Py.LF); simpl; [by rewrite IH |].
  destruct (Py.readlines text) as [|l ls] eqn:E; simpl in *.
  - apply readlines_nil in E as ->. done.
  - change (String c (l +:+ foldr String.append "" ls) = String c text).
    by rewrite IH.
Qed.

(** Only the last line of a text can lack its newline. *)
Lemma readlines_newlines text lines last :
  Py.readlines text = lines ++ [last] →
  Forall (λ l, ∃ body, l = body +:+ String Py.LF "") lines.
Proof.
  revert lines. induction text as [|c text IH]; intros lines; simpl.
  - by destruct lines.
  - destruct (Ascii.eqb_spec c Py.LF) as [->|Hc].
    + destruct lines as [|l lines]; simpl; [constructor |].
      intros [= <- H]. constructor; [by exists "" | by apply IH].
    + destruct (Py.readlines text) as [|l ls] eqn:E.
      * destruct lines as [|? [|??]]; simpl; [constructor | done | done].
      * destruct lines as [|l' lines]; simpl; [constructor |].
        intros [= <- H]. specialize (IH (l :: lines)). simpl in IH.
        rewrite H in IH. specialize (IH eq_refl).
        apply Forall_cons in IH as [[body ->] IH].
        constructor; [by exists (String c body) | done].
Qed.

Lemma strip_no_leading line :
  Py.lstrip line = line → Py.strip line = Py.rstrip line.
Proof. unfold Py.strip. by intros ->. Qed.

(** With a path, the pool receives the stripped lines of the file. *)
Lemma download_fastq_parallel_file w out_dir sample_list download_methods
    processes use_max_processes path text :
  path ≠ "" → file_text w path = Ok text →
  submitted_ids
    (download_fastq_parallel out_dir sample_list download_methods processes
       (Some path) use_max_processes w).1
  = [Py.strip <$> Py.readlines text].
Proof.
  intros Hpath Htext. unfold submitted_ids.
  rewrite (download_fastq_parallel_requests _ _ _ _ _ _ _ _
             (Resolved_file w sample_list path text Hpath Htext)).
  simpl. f_equal.
  unfold tasks_for. rewrite <- list_fmap_compose. apply list_fmap_id.
Qed.

(** C2, as stated, fails on a line that starts with whitespace: the
    identifier loses the whitespace at both ends, not only at the end. *)
Lemma file_resolution_trailing_only_counterexample :
  file_text Demo.world "ids.txt" = Ok Demo.ids_txt ∧
  Py.readlines Demo.ids_txt !! 1%nat = Some (Demo.line " SRR002 ") ∧
  Py.rstrip (Demo.line " SRR002 ") = " SRR002" ∧
  submitted_ids
    (download_fastq_parallel None None "ena-ftp" 10 (Some "ids.txt") false
       Demo.world).1
  ≠ [Py.rstrip <$> Py.readlines Demo.ids_txt].
Proof. repeat split. vm_compute. discriminate. Qed.

(** C2 (amended). For every input file of N lines, file-based resolution
    yields exactly N identifiers in file order, each equal to the
    corresponding line with the whitespace at both of its ends removed
    (which is the line with trailing whitespace removed when the line does
    not start with whitespace); a blank line yields an empty-string
    identifier. *)
Theorem file_resolution_strips_both_ends (w : World) (out_dir : option string)
    (sample_list : option (list string)) (download_methods : string)
    (processes : Z) (use_max_processes : bool) (path text : string)
    (Hpath : path ≠ "") (Htext : file_text w path = Ok text) :
  ∃ batch,
    submitted_ids
      (download_fastq_parallel out_dir sample_list download_methods processes
         (Some path) use_max_processes w).1 = [batch] ∧
    length batch = length (Py.readlines text) ∧
    (∀ i line, Py.readlines text !! i = Some line →
       ∃ sample_id,
         batch !! i = Some sample_id ∧
         sample_id = Py.strip line ∧
         (∃ a b, line = a +:+ sample_id +:+ b
                 ∧ Py.all_space a = true ∧ Py.all_space b = true) ∧
         Py.starts_with_space sample_id = false ∧
         Py.ends_with_space sample_id = false ∧
         (Py.starts_with_space line = false → sample_id = Py.rstrip line) ∧
         (line = String Py.LF "" → sample_id = "")).
Proof.
  exists (Py.strip <$> Py.readlines text).
  split; [by apply download_fastq_parallel_file |].
  split; [apply length_fmap |].
  intros i line Hi. exists (Py.strip line).
  split; [by rewrite list_lookup_fmap, Hi |]. split; [done |].
  destruct (strip_spec line) as (Hparts & Hhead & Htail).
  split; [done | split; [done | split; [done | split]]].
  - intros Hl. apply strip_no_leading.
    destruct line as [|c line]; [done |]. simpl in *. by rewrite Hl.
  - by intros ->.
Qed.

Lemma file_resolution_strips_both_ends_witness :
  ∃ batch,
    submitted_ids
      (download_fastq_parallel None None "ena-ftp" 10 (Some "ids.txt") false
         Demo.world).1 = [batch]
    ∧ length batch = 4%nat
    ∧ batch !! 1%nat = Some "SRR002"
    ∧ batch !! 2%nat = Some "".
Proof.
  destruct (file_resolution_strips_both_ends Demo.world None None "ena-ftp" 10
              false "ids.txt" Demo.ids_txt ltac:(discriminate) eq_refl)
    as (batch & Hb & Hlen & Hline).
  exists batch. split; [exact Hb | split; [exact Hlen | split]].
  - destruct (Hline 1%nat (Demo.line " SRR002 ") eq_refl)
      as (sample_id & Hi & -> & _).
    exact Hi.
  - destruct (Hline 2%nat (String Py.LF "") eq_refl)
      as (sample_id & Hi & -> & _).
    exact Hi.
Defined.

(** C4. Whenever a file path is supplied together with an explicit list,
    the run does not depend on the list at all, and the identifiers
    submitted for dispatch are the ones read from the file. *)
Theorem file_overrides_sample_list (w : World) (out_dir : option string)
    (download_methods : string) (processes : Z) (use_max_processes : bool)
    (path : string) (Hpath : path ≠ "") :
  (∀ l1 l2 : option (list string),
     download_fastq_parallel out_dir l1 download_methods processes (Some path)
       use_max_processes w
     = download_fastq_parallel out_dir l2 download_methods processes (Some path)
         use_max_processes w) ∧
  (∀ (l : option (list string)) text, file_text w path = Ok text →
     submitted_ids
       (download_fastq_parallel out_dir l download_methods processes (Some path)
          use_max_processes w).1
     = [Py.strip <$> Py.readlines text]).
Proof.
  split.
  - intros l1 l2. destruct path as [|c path]; [done | reflexivity].
  - intros l text Htext. by apply download_fastq_parallel_file.
Qed.

Lemma file_overrides_sample_list_witness :
  submitted_ids
    (download_fastq_parallel None (Some ["ERR9"; "ERR8"]) "ena-ftp" 10
       (Some "ids.txt") false Demo.world).1
  = [["SRR001"; "SRR002"; ""; "SRR004"]].
Proof.
  exact (proj2 (file_overrides_sample_list Demo.world None "ena-ftp" 10 false
                  "ids.txt" ltac:(discriminate))
           (Some ["ERR9"; "ERR8"]) Demo.ids_txt eq_refl).
Defined.

(** ** [download_GEO_dataset] *)

Lemma gsm_to_srr_trace w gsm : (gsm_to_srr gsm w).1 = [EvSraMetadata gsm].
Proof. reflexivity. Qed.

Lemma gsm_to_srr_run w gsm : gsm_to_srr gsm w = ([EvSraMetadata gsm], (gsm_to_srr gsm w).2).
Proof. reflexivity. Qed.


(** Translating a list of keys up to the first that does not translate. *)
Lemma mapM_gsm_to_srr_Err w translated gsm rest e :
  Forall (translatable w) translated →
  (gsm_to_srr gsm w).2 = Err e →
  mapM gsm_to_srr (translated ++ gsm :: rest) w
  = (EvSraMetadata <$> (translated ++ [gsm]), Err e).
Proof.
  intros Hall He. induction Hall as [|g translated [srr Hsrr] _ IH].
  - change (mapM gsm_to_srr ([] ++ gsm :: rest))
      with (gsm_to_srr gsm ≫= λ y, mapM gsm_to_srr rest ≫= λ k, mret (y :: k)).
    by rewrite (IO_bind_Err _ _ w [EvSraMetadata gsm] e)
      by (by rewrite gsm_to_srr_run, He).
  - change (mapM gsm_to_srr ((g :: translated) ++ gsm :: rest))
      with (gsm_to_srr g ≫= λ y,
            mapM gsm_to_srr (translated ++ gsm :: rest) ≫= λ k, mret (y :: k)).
    rewrite (IO_bind_Ok _ _ w [EvSraMetadata g] srr)
      by (by rewrite gsm_to_srr_run, Hsrr).
    by rewrite (IO_bind_Err _ _ w _ _ IH).
Qed.


Lemma pool_requests_metadata keys : pool_requests (EvSraMetadata <$> keys) = [].
Proof. induction keys as [|k keys IH]; [done | exact IH]. Qed.

Lemma invocations_metadata keys : invocations (EvSraMetadata <$> keys) = [].
Proof. induction keys as [|k keys IH]; [done | exact IH]. Qed.

Lemma commands_metadata keys : commands (EvSraMetadata <$> keys) = [].
Proof. induction keys as [|k keys IH]; [done | exact IH]. Qed.



(** The run of the dataset path when a sample key does not translate. *)
Lemma download_GEO_dataset_translation_error w GEO_id out_dir download_methods
    processes use_max_processes gse translated gsm rest e :
  get_GEO w GEO_id = Ok gse →
  (gsms gse).*1 = translated ++ gsm :: rest →
  Forall (translatable w) translated →
  (gsm_to_srr gsm w).2 = Err e →
  download_GEO_dataset GEO_id out_dir download_methods processes
    use_max_processes w
  = (EvGetGEO GEO_id :: (EvSraMetadata <$> (translated ++ [gsm])), Err e).
Proof.
  intros Hgse Hkeys Hall He. unfold download_GEO_dataset.
  rewrite (IO_bind_Ok _ _ w [EvGetGEO GEO_id] gse)
    by (unfold get_GEO_info; by rewrite Hgse).
  rewrite Hkeys.
  by rewrite (IO_bind_Err _ _ w _ _ (mapM_gsm_to_srr_Err w _ _ rest _ Hall He)).
Qed.

(** The run of the dataset path when the metadata lookup raises. *)
Lemma download_GEO_dataset_lookup_error w GEO_id out_dir download_methods
    processes use_max_processes e :
  get_GEO w GEO_id = Err e →
  download_GEO_dataset GEO_id out_dir download_methods processes
    use_max_processes w
  = ([EvGetGEO GEO_id], Err e).
Proof.
  intros Hgse. unfold download_GEO_dataset.
  by rewrite (IO_bind_Err _ _ w [EvGetGEO GEO_id] e)
    by (unfold get_GEO_info; by rewrite Hgse).
Qed.


(** C5, as stated, fails on a handle with a sample key that does not
    translate: with the keys GSM9, GSM1, GSM2, of which the archive
    knows no run for GSM9, the translation is called on GSM9 only and
    there is no resulting batch. *)
Lemma dataset_expansion_first_key_counterexample :
  get_GEO Demo2.archive_world "GSE3" = Ok Demo2.unarchived_first ∧
  (gsms Demo2.unarchived_first).*1 = ["GSM9"; "GSM1"; "GSM2"] ∧
  translations (download_GEO_dataset "GSE3" (Some "out") "ena-ftp" 10 false
                  Demo2.archive_world).1 = ["GSM9"] ∧
  submitted_ids (download_GEO_dataset "GSE3" (Some "out") "ena-ftp" 10 false
                   Demo2.archive_world).1 = [] ∧
  raises (download_GEO_dataset "GSE3" (Some "out") "ena-ftp" 10 false
            Demo2.archive_world).2.
Proof.
  assert (Hrun :
    download_GEO_dataset "GSE3" (Some "out") "ena-ftp" 10 false
      Demo2.archive_world
    = ([EvGetGEO "GSE3"; EvSraMetadata "GSM9"], Err (KeyError "0"))).
  { apply (download_GEO_dataset_translation_error Demo2.archive_world "GSE3"
             (Some "out") "ena-ftp" 10 false Demo2.unarchived_first
             [] "GSM9" ["GSM1"; "GSM2"]); [done | done | constructor | done]. }
  rewrite Hrun. split; [done |]. split; [done |]. split; [done |].
  split; [done |]. by eexists.
Qed.



(** ** Resolution failures *)

(** A path that cannot be opened ends the run at [open]. *)
Lemma download_fastq_parallel_bad_file w out_dir sample_list download_methods
    processes use_max_processes path e :
  path ≠ "" → file_text w path = Err e →
  download_fastq_parallel out_dir sample_list download_methods processes
    (Some path) use_max_processes w
  = ([EvOpen path], Err e).
Proof.
  intros Hpath Hfile. destruct path as [|c path]; [done |].
  unfold download_fastq_parallel.
  erewrite IO_bind_Err; [reflexivity |].
  erewrite IO_bind_Err; [reflexivity |].
  unfold open_readlines. by rewrite Hfile.
Qed.

(** C8. Whenever resolution fails (the input file cannot be opened, the
    metadata lookup raises, or the translation of a sample key raises),
    the run ends with that very error, uncaught, and its trace holds no
    pool request, no invocation of [download_fastq] and no shell command. *)
Theorem resolution_failure_aborts (w : World) (c : entry) (e : exn)
    (Hfail : resolution_fails w c e) :
  (run_entry c w).2 = Err e ∧
  pool_requests (run_entry c w).1 = [] ∧
  invocations (run_entry c w).1 = [] ∧
  commands (run_entry c w).1 = [].
Proof.
  destruct Hfail as
    [ out_dir sample_list methods processes path use_max e Hpath Hfile
    | argv args path e Hargs Hin Hpath Hfile
    | GEO_id out_dir methods processes use_max e Hgse
    | GEO_id out_dir methods processes use_max gse translated gsm rest e
        Hgse Hkeys Hall He ]; simpl run_entry.
  - by rewrite (download_fastq_parallel_bad_file _ _ _ _ _ _ _ _ Hpath Hfile).
  - unfold Cli.main.
    rewrite (IO_bind_Ok _ _ w [] args) by (unfold lift; by rewrite Hargs).
    rewrite Hin.
    by rewrite (download_fastq_parallel_bad_file _ _ _ _ _ _ _ _ Hpath Hfile).
  - by rewrite (download_GEO_dataset_lookup_error _ _ _ _ _ _ _ Hgse).
  - rewrite (download_GEO_dataset_translation_error _ _ _ _ _ _ _ _ _ _ _
               Hgse Hkeys Hall He).
    simpl fst; simpl snd. split; [done |].
    change (EvGetGEO GEO_id :: ?l) with ([EvGetGEO GEO_id] ++ l).
    rewrite pool_requests_app, invocations_app, commands_app.
    by rewrite pool_requests_metadata, invocations_metadata, commands_metadata.
Qed.

Lemma resolution_failure_aborts_witness :
  (download_fastq_parallel (Some "out") (Some ["SRR001"]) "ena-ftp" 10
     (Some "missing.txt") false Demo.world).2
  = Err (OSError "No such file or directory")
  ∧ invocations
      (download_GEO_dataset "GSE404" (Some "out") "ena-ftp" 10 false
         Demo.world).1 = []
  ∧ commands
      (download_GEO_dataset "GSE2" (Some "out") "ena-ftp" 10 false
         Demo.world).1 = []
  ∧ (Cli.main [(Cli.input_file, "missing.txt")] Demo.world).2
    = Err (OSError "No such file or directory").
Proof.
  split; [| split; [| split]].
  - apply (resolution_failure_aborts Demo.world
             (Call_download_fastq_parallel (Some "out") (Some ["SRR001"])
                "ena-ftp" 10 (Some "missing.txt") false)
             (OSError "No such file or directory")).
    by apply bad_file_path.
  - apply (resolution_failure_aborts Demo.world
             (Call_download_GEO_dataset "GSE404" (Some "out") "ena-ftp" 10 false)
             (LibraryError "GEOparse")).
    by apply lookup_error.
  - apply (resolution_failure_aborts Demo.world
             (Call_download_GEO_dataset "GSE2" (Some "out") "ena-ftp" 10 false)
             (KeyError "0")).
    apply (translation_error Demo.world "GSE2" (Some "out") "ena-ftp" 10 false
             Demo.broken_series ["GSM1"] "GSM9" []); [done | done | | done].
    repeat constructor. by exists "SRR1".
  - apply (resolution_failure_aborts Demo.world
             (Call_main [(Cli.input_file, "missing.txt")])
             (OSError "No such file or directory")).
    by eapply bad_file_path_main.
Defined.

(** ** The command line *)

Lemma store_use_max ns occ ns' :
  Cli.store ns occ = Ok ns' →
  Cli.ns_use_max_processes ns'
  = if decide (Cli.use_max_processes = occ.1) then Cli.py_bool occ.2
    else Cli.ns_use_max_processes ns.
Proof.
  destruct occ as [[] v]; simpl; try (by intros [= <-]).
  destruct (Cli.py_int v); [by intros [= <-] | done].
Qed.

(** The parsed flag is [bool] of the last value supplied, or what it was
    before when the option does not occur. *)
Lemma parse_from_use_max argv ns0 ns :
  Cli.parse_from ns0 argv = Ok ns →
  Cli.ns_use_max_processes ns
  = match Cli.supplied Cli.use_max_processes argv with
    | Some s => Cli.py_bool s
    | None => Cli.ns_use_max_processes ns0
    end.
Proof.
  revert ns0. induction argv as [|[d v] argv IH]; intros ns0 H.
  - by injection H as <-.
  - change ((Cli.store ns0 (d, v) ≫= λ ns', Cli.parse_from ns' argv) = Ok ns) in H.
    apply res_bind_Ok in H as (ns' & Hstore & H).
    rewrite (IH _ H).
    change (Cli.supplied Cli.use_max_processes ((d, v) :: argv))
      with (match Cli.supplied Cli.use_max_processes argv with
            | Some v' => Some v'
            | None => if decide (Cli.use_max_processes = d) then Some v else None
            end).
    destruct (Cli.supplied Cli.use_max_processes argv); [done |].
    rewrite (store_use_max _ _ _ Hstore). simpl.
    by destruct (decide (Cli.use_max_processes = d)).
Qed.

(** C9, as stated, fails on an empty value: the option is supplied, yet
    the parsed flag is false. *)
Lemma use_max_flag_empty_value_counterexample :
  ∃ args,
    Cli.parse_args [(Cli.use_max_processes, "")] = Ok args ∧
    Cli.ns_use_max_processes args = false ∧
    Cli.supplied Cli.use_max_processes [(Cli.use_max_processes, "")] ≠ None.
Proof. eexists. split; [reflexivity | split; [reflexivity | discriminate]]. Qed.

(** C9 (amended). For every command line that supplies a non-empty string
    to [--use_max_processes], the string "False" included, the parsed flag
    is true; the flag is false exactly when the option is omitted or the
    value supplied last is the empty string. *)
Theorem use_max_flag_parsed (argv : Cli.cmdline) (args : Cli.Namespace)
    (Hargs : Cli.parse_args argv = Ok args) :
  (∀ s, Cli.supplied Cli.use_max_processes argv = Some s → s ≠ "" →
        Cli.ns_use_max_processes args = true) ∧
  (Cli.supplied Cli.use_max_processes argv = Some "False" →
   Cli.ns_use_max_processes args = true) ∧
  (Cli.ns_use_max_processes args = false ↔
   Cli.supplied Cli.use_max_processes argv = None
   ∨ Cli.supplied Cli.use_max_processes argv = Some "").
Proof.
  rewrite (parse_from_use_max _ _ _ Hargs).
  destruct (Cli.supplied Cli.use_max_processes argv) as [[|c s]|]; simpl.
  - split; [by intros s [= <-] | split; [done |]]. split; eauto.
  - split; [done | split; [done |]]. split; [done | by intros [|]].
  - split; [done | split; [done |]]. split; eauto.
Qed.

Lemma use_max_flag_parsed_witness :
  Cli.ns_use_max_processes
    {| Cli.ns_input_file := Some "ids.txt";
       Cli.ns_output_dir := None;
       Cli.ns_download_methods := "ena-ascp ena-ftp aws-http prefetch";
       Cli.ns_processes := 4;
       Cli.ns_use_max_processes := true |} = true.
Proof.
  exact (proj1 (proj2 (use_max_flag_parsed
                         [(Cli.input_file, "ids.txt");
                          (Cli.use_max_processes, "False");
                          (Cli.processes, "4")] _ eq_refl)) eq_refl).
Defined.

(** * Further results *)

(** ** [list_to_dict]: keys, sizes, parts *)

Lemma last_value_is_Some k kvs : is_Some (last_value k kvs) ↔ k ∈ kvs.*1.
Proof.
  induction kvs as [|[k' v] kvs IH]; simpl.
  - split; [by intros [? ?] | by intros ?%elem_of_nil].
  - rewrite elem_of_cons, <- IH. destruct (last_value k kvs) as [v'|].
    + split; [right; by eexists | by eexists].
    + destruct (decide (k' = k)) as [->|Hne].
      * split; [by left | by eexists].
      * split; [by intros [? ?] | intros [->|[? ?]]; done].
Qed.

Lemma last_value_NoDup k v kvs :
  NoDup kvs.*1 → (k, v) ∈ kvs → last_value k kvs = Some v.
Proof.
  induction kvs as [|[k' v'] kvs IH]; simpl.
  - by intros _ ?%elem_of_nil.
  - intros [Hk' Hnd]%NoDup_cons [[= -> ->]|Hin]%elem_of_cons.
    + destruct (last_value k' kvs) as [v''|] eqn:E.
      * destruct Hk'. apply last_value_is_Some. by rewrite E.
      * by rewrite decide_True.
    + by rewrite (IH Hnd Hin).
Qed.

Lemma size_foldl_insert_le (d : gmap string string) kvs :
  (size (foldl (λ m kv, <[kv.1 := kv.2]> m) d kvs) ≤ size d + length kvs)%nat.
Proof.
  revert d. induction kvs as [|[k v] kvs IH]; intros d; simpl; [lia |].
  etrans; [apply IH |]. rewrite map_size_insert.
  destruct (d !! k); simpl; lia.
Qed.

(** The map grows by one entry per pair exactly when the keys are new
    and pairwise distinct. *)
Lemma size_foldl_insert_eq (d : gmap string string) kvs :
  size (foldl (λ m kv, <[kv.1 := kv.2]> m) d kvs) = (size d + length kvs)%nat
  ↔ NoDup kvs.*1 ∧ ∀ k, k ∈ kvs.*1 → d !! k = None.
Proof.
  revert d. induction kvs as [|[k v] kvs IH]; intros d; simpl.
  - split; [| lia]. intros _. split; [constructor | by intros k ?%elem_of_nil].
  - pose proof (size_foldl_insert_le (<[k:=v]> d) kvs) as Hle.
    pose proof (map_size_insert k v d) as Hins. split.
    + intros Heq.
      assert (Hk : d !! k = None).
      { destruct (d !! k); [simpl in Hins; lia | done]. }
      rewrite Hk in Hins. simpl in Hins.
      destruct (proj1 (IH (<[k:=v]> d))) as [Hnd Hnew]; [lia |].
      split.
      * apply NoDup_cons. split; [| done]. intros Hin.
        specialize (Hnew k Hin). by rewrite lookup_insert_eq in Hnew.
      * intros k' [->|Hin]%elem_of_cons; [done |].
        specialize (Hnew k' Hin).
        destruct (decide (k = k')) as [->|Hne]; [done |].
        by rewrite lookup_insert_ne in Hnew.
    + intros [[Hk Hnd]%NoDup_cons Hnew].
      rewrite (proj2 (IH (<[k:=v]> d))).
      * rewrite Hins, (Hnew k) by left. simpl. lia.
      * split; [done |]. intros k' Hin.
        rewrite lookup_insert_ne by (intros ->; done).
        apply Hnew. by right.
Qed.

(** X1. When [list_to_dict] returns, it has read one pair off every
    input string; the keys of the dictionary are exactly the keys read,
    so the dictionary is never larger than the input, and it is as large
    exactly when no key occurs twice, in which case every pair read can
    be looked up again. *)
Theorem list_to_dict_keys (l : list string) (sep : string)
    (d : gmap string string) (Hd : list_to_dict l sep = Ok d) :
  let pairs := omap (binding_of sep) l in
  length pairs = length l ∧
  (∀ k, is_Some (d !! k) ↔ k ∈ pairs.*1) ∧
  (size d ≤ length l)%nat ∧
  (size d = length l ↔ NoDup pairs.*1) ∧
  (NoDup pairs.*1 → ∀ k v, (k, v) ∈ pairs → d !! k = Some v).
Proof.
  intros pairs. subst pairs.
  apply list_to_dict_Ok in Hd as (kvs & Hkvs & ->).
  rewrite (Forall2_binding_omap _ _ _ Hkvs).
  apply Forall2_length in Hkvs. rewrite Hkvs.
  split; [done | split; [| split; [| split]]].
  - intros k. rewrite foldl_insert_lookup, lookup_empty, <- last_value_is_Some.
    by destruct (last_value k kvs).
  - pose proof (size_foldl_insert_le ∅ kvs) as H.
    by rewrite map_size_empty in H.
  - pose proof (size_foldl_insert_eq ∅ kvs) as H.
    rewrite map_size_empty in H. simpl in H. rewrite H.
    split; [by intros [? _] |]. intros Hnd. split; [done |].
    intros k _. apply lookup_empty.
  - intros Hnd k v Hin.
    by rewrite foldl_insert_lookup, (last_value_NoDup _ _ _ Hnd Hin).
Qed.

Lemma list_to_dict_keys_witness :
  ∃ d : gmap string string,
    list_to_dict ["a:1"; "b:2"] ":" = Ok d ∧ size d = 2%nat
    ∧ d !! "b" = Some "2".
Proof.
  assert (Hd : list_to_dict ["a:1"; "b:2"] ":"
               = Ok (<["b":="2"]> (<["a":="1"]> ∅)))
    by (vm_compute; reflexivity).
  destruct (list_to_dict_keys _ _ _ Hd) as (_ & _ & _ & Hsize & Hlook).
  assert (Hnd : NoDup (omap (binding_of ":") ["a:1"; "b:2"]).*1).
  { apply (NoDup_cons "a" ["b"]). split.
    - by intros [[=]|?%elem_of_nil]%elem_of_cons.
    - apply NoDup_singleton. }
  eexists. split; [exact Hd | split].
  - exact (proj2 Hsize Hnd).
  - apply (Hlook Hnd). right. left.
Defined.

Lemma string_append_assoc a b c : (a +:+ b) +:+ c = a +:+ (b +:+ c).
Proof. induction a as [|x a IH]; [done |]. by rewrite !append_cons, IH. Qed.

Lemma string_append_nil_r a : a +:+ "" = a.
Proof. induction a as [|x a IH]; [done |]. by rewrite append_cons, IH. Qed.

Lemma startswith_app_true p a r :
  Py.startswith p a = true → Py.startswith p (a +:+ r) = true.
Proof.
  intros [t ->]%startswith_inv. rewrite string_append_assoc.
  apply startswith_app.
Qed.

Lemma contains_empty a sep : Py.contains (String a sep) "" = false.
Proof. reflexivity. Qed.

(** The first piece of a split is a prefix of the string. *)
Lemma split_from_head a sep s p ps :
  Py.split_from (String a sep) 0 s = p :: ps → ∃ r, s = p +:+ r.
Proof.
  intros Hs.
  assert (Hj : Py.join (String a sep) (p :: ps) = s).
  { apply split_join. unfold Py.split. by rewrite Hs. }
  destruct ps as [|q ps]; simpl in Hj.
  - exists "". by rewrite string_append_nil_r.
  - by eexists.
Qed.

(** No piece of a split holds the separator. *)
Lemma split_from_no_sep a sep s :
  Forall (λ p, Py.contains (String a sep) p = false)
    (Py.split_from (String a sep) 0 s).
Proof.
  remember (String.length s) as n eqn:Hn.
  assert (Hle : (String.length s ≤ n)%nat) by lia. clear Hn.
  revert s Hle. induction n as [|n IH]; intros s Hle.
  - destruct s; [by repeat constructor | simpl in Hle; lia].
  - destruct s as [|c s]; [by repeat constructor |].
    change (Py.split_from (String a sep) 0 (String c s))
      with (if Py.startswith (String a sep) (String c s)
            then "" :: Py.split_from (String a sep) (String.length sep) s
            else match Py.split_from (String a sep) 0 s with
                 | [] => [String c ""]
                 | p :: ps => String c p :: ps
                 end).
    destruct (Py.startswith (String a sep) (String c s)) eqn:Hstart.
    + apply startswith_inv in Hstart as [r Hr]. injection Hr as -> ->.
      rewrite split_from_skip. constructor; [done |].
      apply IH. simpl in Hle. rewrite string_length_append in Hle. lia.
    + assert (Hs : (String.length s ≤ n)%nat) by (simpl in Hle; lia).
      specialize (IH s Hs).
      destruct (Py.split_from (String a sep) 0 s) as [|p ps] eqn:Hsplit.
      { by destruct (split_from_nonempty (String a sep) 0 s). }
      apply Forall_cons in IH as [Hp Hps]. constructor; [| done].
      change (Py.startswith (String a sep) (String c p)
              || Py.contains (String a sep) p = false).
      rewrite Hp, orb_false_r.
      destruct (Py.startswith (String a sep) (String c p)) eqn:Hcp; [| done].
      destruct (split_from_head _ _ _ _ _ Hsplit) as [r ->].
      pose proof (startswith_app_true _ (String c p) r Hcp) as Happ.
      rewrite append_cons in Happ. congruence.
Qed.

(** What a string that splits in two is made of. *)
Lemma binding_of_parts sep s k v :
  binding_of sep s = Some (k, v) →
  s = k +:+ sep +:+ v ∧ Py.contains sep k = false ∧ Py.contains sep v = false.
Proof.
  intros Hs%binding_of_Some. split; [symmetry; by apply (split_join s sep [k; v]) |].
  unfold Py.split in Hs. destruct sep as [|a sep]; [done |].
  injection Hs as Hs. pose proof (split_from_no_sep a sep s) as Hall.
  rewrite Hs in Hall.
  apply Forall_cons in Hall as [Hk Hall]. by apply Forall_cons in Hall as [Hv _].
Qed.

(** X2. When [list_to_dict] returns, every input string is a key
    followed by the separator followed by a value, neither of which holds
    the separator, and the key is bound in the dictionary. *)
Theorem list_to_dict_parts (l : list string) (sep : string)
    (d : gmap string string) (Hd : list_to_dict l sep = Ok d)
    (s : string) (Hs : s ∈ l) :
  ∃ k v, s = k +:+ sep +:+ v ∧
         Py.contains sep k = false ∧ Py.contains sep v = false ∧
         is_Some (d !! k).
Proof.
  apply list_to_dict_Ok in Hd as (kvs & Hkvs & ->).
  apply list_elem_of_lookup in Hs as [i Hi].
  destruct (Forall2_lookup_l _ _ _ _ _ Hkvs Hi) as ([k v] & Hkv & Hbind).
  destruct (binding_of_parts _ _ _ _ Hbind) as (Heq & Hk & Hv).
  exists k, v. split; [done | split; [done | split; [done |]]].
  rewrite foldl_insert_lookup, lookup_empty.
  assert (Hin : is_Some (last_value k kvs)).
  { apply last_value_is_Some. apply list_elem_of_fmap.
    exists (k, v). split; [done |]. by eapply list_elem_of_lookup_2. }
  destruct Hin as [v' ->]. by eexists.
Qed.

Lemma list_to_dict_parts_witness :
  ∃ k v, "b:2" = k +:+ ":" +:+ v ∧
         Py.contains ":" k = false ∧ Py.contains ":" v = false ∧
         is_Some ((<["b":="2"]> (<["a":="1"]> ∅) : gmap string string) !! k).
Proof.
  assert (Hd : list_to_dict ["a:1"; "b:2"] ":"
               = Ok (<["b":="2"]> (<["a":="1"]> ∅)))
    by (vm_compute; reflexivity).
  apply (list_to_dict_parts ["a:1"; "b:2"] ":" _ Hd "b:2"). right. left.
Defined.

(** [list_to_dict] raises exactly when some string does not yield a pair. *)
Lemma list_to_dict_raises_iff l sep :
  raises (list_to_dict l sep) ↔ ∃ s, s ∈ l ∧ binding_of sep s = None.
Proof.
  rewrite res_raises_not_Ok. split.
  - intros Hno. destruct (binding_all_or_missing sep l) as [Hall|]; [| done].
    destruct (Forall_binding_Forall2 sep l Hall) as [kvs Hkvs].
    destruct (Hno (foldl (λ m kv, <[kv.1 := kv.2]> m) ∅ kvs)).
    apply list_to_dict_Ok. by exists kvs.
  - intros (s & Hs & Hnone) d Hd.
    apply list_to_dict_Ok in Hd as (kvs & Hkvs & _).
    apply list_elem_of_lookup in Hs as [i Hi].
    destruct (Forall2_lookup_l _ _ _ _ _ Hkvs Hi) as (kv & _ & Hkv).
    congruence.
Qed.

(** With a separator of one character there is one more piece than there
    are separators. *)
Lemma split_from_one_char_length c s :
  length (Py.split_from (String c "") 0 s) = S (count_char c s).
Proof.
  induction s as [|d s IH]; [done |].
  change (Py.split_from (String c "") 0 (String d s))
    with (if (if Ascii.eqb c d then true else false)
          then "" :: Py.split_from (String c "") 0 s
          else match Py.split_from (String c "") 0 s with
               | [] => [String d ""]
               | p :: ps => String d p :: ps
               end).
  simpl count_char. destruct (Ascii.eqb c d); simpl.
  - by rewrite IH.
  - destruct (Py.split_from (String c "") 0 s); simpl in *; lia.
Qed.

Lemma binding_of_one_char c s :
  binding_of (String c "") s = None ↔ count_char c s ≠ 1%nat.
Proof.
  unfold binding_of, Py.split. simpl.
  pose proof (split_from_one_char_length c s) as Hlen.
  destruct (Py.split_from (String c "") 0 s) as [|k [|v [|x ps]]];
    simpl in Hlen; split; intros H; try done; lia.
Qed.

(** X3. With a separator of one character (the default is [":"]),
    [list_to_dict] raises exactly when some input string does not hold the
    separator exactly once: a string without it, and a string whose value
    holds it again, both make the whole conversion fail. *)
Theorem list_to_dict_one_char_separator (l : list string) (c : ascii) :
  raises (list_to_dict l (String c "")) ↔
  ∃ s, s ∈ l ∧ count_char c s ≠ 1%nat.
Proof.
  rewrite list_to_dict_raises_iff.
  split; intros (s & Hs & H); exists s; (split; [done |]);
    by apply binding_of_one_char.
Qed.

(** ** [download_fastq]: the other ways to name the identifiers *)





(** With a path, [download_fastq] opens the file, and what follows hangs
    on what the file gives. *)
Lemma download_fastq_file_run w out_dir sample_ids download_methods path :
  path ≠ "" →
  download_fastq out_dir sample_ids download_methods (Some path) w
  = match file_text w path with
    | Ok text =>
        ([EvDownloadFastq out_dir sample_ids download_methods (Some path);
          EvOpen path;
          EvSubprocess
            (command_for out_dir download_methods
               (Py.join " " (Py.strip <$> Py.readlines text)))],
         call_outcome w
           (command_for out_dir download_methods
              (Py.join " " (Py.strip <$> Py.readlines text))))
    | Err e =>
        ([EvDownloadFastq out_dir sample_ids download_methods (Some path);
          EvOpen path],
         Err e)
    end.
Proof.
  intros Hpath. destruct path as [|c path]; [done |].
  unfold download_fastq.
  rewrite (IO_bind_Ok _ _ w
             [EvDownloadFastq out_dir sample_ids download_methods
                (Some (String c path))] tt) by done.
  destruct (file_text w (String c path)) as [text|e] eqn:Htext.
  - erewrite (IO_bind_Ok _ _ w [EvOpen (String c path)]); cycle 1.
    { erewrite IO_bind_Ok; cycle 1.
      { unfold open_readlines. rewrite Htext. reflexivity. }
      simpl. reflexivity. }
    rewrite IO_bind_run. unfold subprocess_call, call_outcome, command_for.
    cbn [format_ids]. by destruct (launch w _).
  - erewrite (IO_bind_Err _ _ w [EvOpen (String c path)] e); [done |].
    erewrite IO_bind_Err; [reflexivity |].
    unfold open_readlines. by rewrite Htext.
Qed.

(** X5. With a file path, [download_fastq] opens that file once and
    ignores [sample_ids]: when the file can be read it hands one single
    command to the shell call, for all the lines of the file, stripped
    and joined by single spaces, the very command it issues for the list
    of those identifiers, and it returns exactly when that command can be
    started, raising what the call raises otherwise; when the file cannot
    be opened the error of [open] comes out and no command is issued. *)
Theorem download_fastq_with_file (w : World) (out_dir : option string)
    (sample_ids : option ids) (download_methods path : string)
    (Hpath : path ≠ "") :
  let run := download_fastq out_dir sample_ids download_methods (Some path) w in
  opened run.1 = [path] ∧
  match file_text w path with
  | Ok text =>
      let cmd := command_for out_dir download_methods
                   (Py.join " " (Py.strip <$> Py.readlines text)) in
      commands run.1 = [cmd] ∧
      commands run.1
      = commands (download_fastq out_dir
                    (Some (IdList (Py.strip <$> Py.readlines text)))
                    download_methods None w).1 ∧
      (run.2 = Ok tt ↔ launches w cmd) ∧
      (∀ e, run.2 = Err e ↔ launch w cmd = Err e)
  | Err e => run.2 = Err e ∧ commands run.1 = []
  end.
Proof.
  intros run. subst run. rewrite (download_fastq_file_run _ _ _ _ _ Hpath).
  destruct (file_text w path) as [text|e]; [| done].
  cbv zeta. cbn [fst snd]. split; [done |]. split; [done |].
  split; [by rewrite download_fastq_no_file_run |].
  split; [apply call_outcome_Ok | intros e; apply call_outcome_Err].
Qed.

Lemma download_fastq_with_file_witness :
  commands (download_fastq None (Some (OneId "ERR9")) "ena-ftp"
              (Some "ids.txt") Demo.world).1
  = ["kingfisher get --run-identifiers SRR001 SRR002  SRR004  --download-methods ena-ftp"]
  ∧ (download_fastq None None "ena-ftp" (Some "missing.txt") Demo.world).2
    = Err (OSError "No such file or directory").
Proof.
  split.
  - exact (proj1 (proj2 (download_fastq_with_file Demo.world None
                           (Some (OneId "ERR9")) "ena-ftp" "ids.txt"
                           ltac:(discriminate)))).
  - exact (proj1 (proj2 (download_fastq_with_file Demo.world None None
                           "ena-ftp" "missing.txt" ltac:(discriminate)))).
Defined.

(** ** Exit statuses *)

Lemma IO_bind_ext {A B} (m : IO A) (k : A → IO B) w w' :
  m w' = m w → (∀ a, k a w' = k a w) → (m ≫= k) w' = (m ≫= k) w.
Proof.
  intros Hm Hk. rewrite !IO_bind_run, Hm.
  destruct (m w) as [t [a|e]]; [by rewrite Hk | done].
Qed.

Lemma call_outcome_exit_status w status cmd :
  call_outcome (with_exit_status w status) cmd = call_outcome w cmd.
Proof.
  unfold call_outcome, launch.
  change (launch_error (with_exit_status w status)) with (launch_error w).
  destruct (has_nul cmd); [done |]. by destruct (launch_error w cmd).
Qed.

Lemma download_fastq_exit_status w status out_dir sample_ids download_methods
    file :
  download_fastq out_dir sample_ids download_methods file
    (with_exit_status w status)
  = download_fastq out_dir sample_ids download_methods file w.
Proof.
  unfold download_fastq.
  apply IO_bind_ext; [done |]. intros _.
  apply IO_bind_ext; [by destruct file as [[|??]|] |]. intros ids.
  rewrite !(IO_bind_mret (subprocess_call _) (λ _, tt)).
  unfold subprocess_call. cbn [fst snd]. f_equal.
  apply call_outcome_exit_status.
Qed.

Lemma run_tasks_exit_status w status ts :
  run_tasks (with_exit_status w status) ts = run_tasks w ts.
Proof.
  induction ts as [|t ts IH]; [done |]. cbn [run_tasks]. rewrite IH.
  unfold launch. change (launch_error (with_exit_status w status))
    with (launch_error w).
  destruct (has_nul (task_command t)); [done |].
  by destruct (launch_error w (task_command t)).
Qed.

Lemma Parallel_exit_status w status n_jobs tasks :
  Parallel n_jobs tasks (with_exit_status w status) = Parallel n_jobs tasks w.
Proof.
  destruct (decide (n_jobs = 0)) as [->|Hn]; [done |].
  by rewrite !Parallel_run, run_tasks_exit_status.
Qed.

Lemma download_fastq_parallel_exit_status w status out_dir sample_list
    download_methods processes file use_max_processes :
  download_fastq_parallel out_dir sample_list download_methods processes file
    use_max_processes (with_exit_status w status)
  = download_fastq_parallel out_dir sample_list download_methods processes file
      use_max_processes w.
Proof.
  unfold download_fastq_parallel.
  apply IO_bind_ext; [by destruct file as [[|??]|] |]. intros samples.
  apply IO_bind_ext; [by destruct use_max_processes |]. intros n_jobs.
  apply IO_bind_ext; [done |]. intros batch.
  apply Parallel_exit_status.
Qed.

Lemma mapM_gsm_to_srr_exit_status w status keys :
  mapM gsm_to_srr keys (with_exit_status w status) = mapM gsm_to_srr keys w.
Proof.
  induction keys as [|k keys IH]; [done |].
  change (mapM gsm_to_srr (k :: keys))
    with (gsm_to_srr k ≫= λ y, mapM gsm_to_srr keys ≫= λ ys, mret (y :: ys)).
  apply IO_bind_ext; [done |]. intros y.
  apply IO_bind_ext; [exact IH | done].
Qed.

(** X6. No exit status is ever inspected: whatever the shell commands
    return, every entry point ([download_fastq_parallel],
    [download_GEO_dataset], the script) and [download_fastq] itself run
    the same way, with the same events and the same result. *)
Theorem exit_status_never_inspected (w : World) (status : string → Z) :
  (∀ c, run_entry c (with_exit_status w status) = run_entry c w) ∧
  (∀ out_dir sample_ids download_methods file,
     download_fastq out_dir sample_ids download_methods file
       (with_exit_status w status)
     = download_fastq out_dir sample_ids download_methods file w).
Proof.
  split; [| intros; apply download_fastq_exit_status].
  intros [out_dir sample_list methods processes file use_max
         | GEO_id out_dir methods processes use_max
         | argv]; simpl run_entry.
  - apply download_fastq_parallel_exit_status.
  - unfold download_GEO_dataset.
    apply IO_bind_ext; [done |]. intros gse.
    apply IO_bind_ext; [apply mapM_gsm_to_srr_exit_status |]. intros batch.
    apply download_fastq_parallel_exit_status.
  - unfold Cli.main. apply IO_bind_ext; [done |]. intros args.
    apply download_fastq_parallel_exit_status.
Qed.

(** ** [download_fastq_parallel]: missing and empty input, commands *)

(** X7. With neither a file path nor a list, [download_fastq_parallel]
    raises a [TypeError] (from [len] with the use-max flag, from the
    iteration without it) before doing anything: no file is opened and
    nothing reaches the pool. *)
Theorem download_fastq_parallel_no_input (w : World) (out_dir : option string)
    (download_methods : string) (processes : Z) (file : option string)
    (use_max_processes : bool) (Hfile : Py.truthy file = false) :
  let run := download_fastq_parallel out_dir None download_methods processes
               file use_max_processes w in
  (∃ msg, run.2 = Err (TypeError msg)) ∧ run.1 = [].
Proof.
  destruct file as [[|c path]|]; [| done |];
    destruct use_max_processes; simpl; split; by eexists.
Qed.

Lemma download_fastq_parallel_no_input_witness :
  (download_fastq_parallel (Some "out") None "ena-ftp" 10 (Some "") true
     Demo.world).1 = [].
Proof.
  exact (proj2 (download_fastq_parallel_no_input Demo.world (Some "out")
                  "ena-ftp" 10 (Some "") true eq_refl)).
Defined.

Lemma commands_opening file : commands (opening file) = [].
Proof. by destruct file as [[|??]|]. Qed.






(** X8. An empty batch (an empty input file, an empty list) is no error
    by itself: without the use-max flag and with a worker count other than
    0 the run returns after one pool request without tasks, no invocation
    and no command. With the use-max flag the worker count is the batch
    size, 0, and the run ends in the pool's [ValueError]. *)
Theorem download_fastq_parallel_empty_batch (w : World)
    (out_dir : option string) (sample_list : option (list string))
    (download_methods : string) (processes : Z) (file : option string)
    (use_max_processes : bool) (Hres : Resolved w sample_list file []) :
  let run := download_fastq_parallel out_dir sample_list download_methods
               processes file use_max_processes w in
  invocations run.1 = [] ∧ commands run.1 = [] ∧
  (use_max_processes = true → ∃ msg, run.2 = Err (ValueError msg)) ∧
  (use_max_processes = false → processes ≠ 0 →
   run.2 = Ok tt ∧ pool_requests run.1 = [(processes, [])]).
Proof.
  intros run. subst run.
  rewrite (download_fastq_parallel_requests _ _ _ _ _ _ _ _ Hres).
  rewrite (download_fastq_parallel_resolved _ _ _ _ _ _ _ _ Hres).
  cbv zeta. simpl fst; simpl snd.
  rewrite invocations_app, invocations_opening, commands_app, commands_opening.
  destruct use_max_processes; simpl effective_workers.
  - rewrite Parallel_run_zero. split; [done | split; [done | split]];
      [by eexists | done].
  - destruct (decide (processes = 0)) as [->|Hn].
    + rewrite Parallel_run_zero. by repeat split.
    + rewrite Parallel_launch by (done || constructor).
      assert (Hnone : pool_order w [] = []).
      { apply Permutation_nil_r, pool_fair. }
      unfold tasks_for. simpl fmap. rewrite Hnone. by repeat split.
Qed.

Lemma download_fastq_parallel_empty_batch_witness :
  (∃ msg, (download_fastq_parallel None None "ena-ftp" 10 (Some "empty.txt")
             true Demo2.bare_world).2 = Err (ValueError msg))
  ∧ (download_fastq_parallel None (Some []) "ena-ftp" 10 None false
       Demo2.bare_world).2 = Ok tt.
Proof.
  split.
  - apply (download_fastq_parallel_empty_batch Demo2.bare_world None None
             "ena-ftp" 10 (Some "empty.txt") true); [| done].
    by apply (Resolved_file Demo2.bare_world None "empty.txt" "").
  - apply (download_fastq_parallel_empty_batch Demo2.bare_world None (Some [])
             "ena-ftp" 10 None false); [| done | done].
    by apply Resolved_list.
Defined.



(** ** Lines of the input file *)

Lemma lstrip_all_space s : Py.all_space s = true → Py.lstrip s = "".
Proof.
  induction s as [|c s IH]; simpl; [done |].
  intros [Hc Hs]%andb_true_iff. rewrite Hc. by apply IH.
Qed.

Lemma rstrip_all_space s : Py.all_space s = true → Py.rstrip s = "".
Proof.
  induction s as [|c s IH]; simpl; [done |].
  intros [Hc Hs]%andb_true_iff. by rewrite (IH Hs), Hc.
Qed.


Lemma rstrip_app_space s b :
  Py.all_space b = true → Py.rstrip (s +:+ b) = Py.rstrip s.
Proof.
  intros Hb. induction s as [|c s IH].
  - by rewrite append_nil, rstrip_all_space.
  - rewrite append_cons. simpl. by rewrite IH.
Qed.

Lemma strip_app_space s b :
  Py.all_space b = true → Py.strip (s +:+ b) = Py.strip s.
Proof.
  intros Hb. unfold Py.strip. induction s as [|c s IH].
  - by rewrite append_nil, lstrip_all_space.
  - rewrite append_cons. simpl. destruct (Py.isspace c); [exact IH |].
    by rewrite <- append_cons, rstrip_app_space.
Qed.



(** The lines of a text and of the same text with a newline added after
    a last character that is none. *)
Lemma readlines_final_newline body c :
  c ≠ Py.LF →
  ∃ ls last,
    Py.readlines (body +:+ String c "") = ls ++ [last] ∧
    Py.readlines (body +:+ String c (String Py.LF ""))
    = ls ++ [last +:+ String Py.LF ""].
Proof.
  intros Hc. apply Ascii.eqb_neq in Hc.
  induction body as [|d body (ls & last & H1 & H2)].
  - exists [], (String c ""). rewrite !append_nil. simpl. by rewrite Hc.
  - rewrite !append_cons. simpl. rewrite H1, H2.
    destruct (Ascii.eqb d Py.LF).
    + by exists (String d "" :: ls), last.
    + destruct ls as [|l ls]; simpl.
      * by exists [], (String d last).
      * by exists (String d l :: ls), last.
Qed.

Lemma all_space_LF : Py.all_space (String Py.LF "") = true.
Proof. reflexivity. Qed.

(** X11. A newline after the last line makes no difference: a file
    whose last character is no newline and the same file with one newline
    added submit the same identifiers to the pool. *)
Theorem final_newline_optional (w : World) (out_dir : option string)
    (sample_list : option (list string)) (download_methods : string)
    (processes : Z) (use_max_processes : bool) (path path' body : string)
    (c : ascii) (Hc : c ≠ Py.LF) (Hpath : path ≠ "") (Hpath' : path' ≠ "")
    (Htext : file_text w path = Ok (body +:+ String c ""))
    (Htext' : file_text w path' = Ok (body +:+ String c (String Py.LF ""))) :
  submitted_ids
    (download_fastq_parallel out_dir sample_list download_methods processes
       (Some path) use_max_processes w).1
  = submitted_ids
      (download_fastq_parallel out_dir sample_list download_methods processes
         (Some path') use_max_processes w).1.
Proof.
  rewrite (download_fastq_parallel_file _ _ _ _ _ _ _ _ Hpath Htext).
  rewrite (download_fastq_parallel_file _ _ _ _ _ _ _ _ Hpath' Htext').
  destruct (readlines_final_newline body c Hc) as (ls & last & -> & ->).
  rewrite !fmap_app. simpl. by rewrite (strip_app_space _ _ all_space_LF).
Qed.

Lemma final_newline_optional_witness :
  submitted_ids
    (download_fastq_parallel None None "ena-ftp" 10 (Some "a.txt") false
       Demo2.two_files).1
  = submitted_ids
      (download_fastq_parallel None None "ena-ftp" 10 (Some "b.txt") false
         Demo2.two_files).1.
Proof.
  apply (final_newline_optional Demo2.two_files None None "ena-ftp" 10 false
           "a.txt" "b.txt" (Demo.line "SRR1" +:+ "SRR") "2"%char);
    [discriminate | discriminate | discriminate | reflexivity | reflexivity].
Defined.

(** ** [download_GEO_dataset]: the whole path *)






(** ** The command line: defaults, last values, bad values *)

Lemma supplied_elem d argv v : Cli.supplied d argv = Some v → (d, v) ∈ argv.
Proof.
  induction argv as [|[d' v'] argv IH]; simpl; [done |].
  destruct (Cli.supplied d argv) as [v''|].
  - intros [= ->]. right. by apply IH.
  - destruct (decide (d = d')) as [->|_]; [| done]. intros [= ->]. left.
Qed.

(** Parsing from any starting values: every field is the value supplied
    last, converted, or what it was; only a [--processes] value that is
    no integer makes it fail. *)
Lemma parse_from_spec argv ns0 :
  match Cli.parse_from ns0 argv with
  | Ok ns =>
      ¬ bad_processes argv ∧
      ns = {| Cli.ns_input_file :=
                match Cli.supplied Cli.input_file argv with
                | Some v => Some v
                | None => Cli.ns_input_file ns0
                end;
              Cli.ns_output_dir :=
                match Cli.supplied Cli.output_dir argv with
                | Some v => Some v
                | None => Cli.ns_output_dir ns0
                end;
              Cli.ns_download_methods :=
                default (Cli.ns_download_methods ns0)
                  (Cli.supplied Cli.download_methods argv);
              Cli.ns_processes :=
                default (Cli.ns_processes ns0)
                  (Cli.supplied Cli.processes argv ≫= Cli.py_int);
              Cli.ns_use_max_processes :=
                from_option Cli.py_bool (Cli.ns_use_max_processes ns0)
                  (Cli.supplied Cli.use_max_processes argv) |}
  | Err e => e = SystemExit 2 ∧ bad_processes argv
  end.
Proof.
  revert ns0. induction argv as [|[d v] argv IH]; intros ns0.
  - simpl. split; [by intros (v & ?%elem_of_nil & _) | by destruct ns0].
  - change (Cli.parse_from ns0 ((d, v) :: argv))
      with (Cli.store ns0 (d, v) ≫= λ ns', Cli.parse_from ns' argv).
    assert (Hbad : ∀ ns', match Cli.parse_from ns' argv with
                          | Ok _ => True
                          | Err e => e = SystemExit 2
                                     ∧ bad_processes ((d, v) :: argv)
                          end).
    { intros ns'. specialize (IH ns').
      destruct (Cli.parse_from ns' argv); [done |].
      destruct IH as [-> (v' & Hin & Hv')]. split; [done |].
      exists v'. split; [by right | done]. }
    assert (Hgood : ∀ d', d' ≠ Cli.processes →
              bad_processes ((d', v) :: argv) → bad_processes argv).
    { intros d' Hd' (v' & [[= <- ->]|Hin]%elem_of_cons & Hv'); [done |].
      by exists v'. }
    assert (Hint : ∀ n, Cli.py_int v = Some n →
              bad_processes ((Cli.processes, v) :: argv) → bad_processes argv).
    { intros n Hn (v' & [[= ->]|Hin]%elem_of_cons & Hv'); [congruence |].
      by exists v'. }
    destruct d; simpl Cli.store;
      [ | | | destruct (Cli.py_int v) as [n|] eqn:Hv | ];
      cbn [mbind res_bind mret res_ret].
    5: { split; [done |]. exists v. split; [left | done]. }
    all: match goal with
         | |- context [Cli.parse_from ?n ?a] =>
             specialize (IH n); specialize (Hbad n); revert IH Hbad;
             destruct (Cli.parse_from n a) as [ns|e];
             intros IH Hbad; [| exact Hbad];
             destruct IH as [Hno ->]; split;
             [ intros H; apply Hno;
               first [ eapply Hgood; [| exact H]; discriminate
                     | eapply Hint; [| exact H]; first [eassumption | reflexivity] ]
             | cbn [Cli.supplied];
               destruct (Cli.supplied Cli.processes a) as [p|] eqn:Hp;
               [ pose proof (supplied_elem _ _ _ Hp) as Hin;
                 destruct (Cli.py_int p) as [m|] eqn:Hm;
                 [| destruct Hno; by exists p ] | ];
               destruct_supplied a; simpl;
               repeat match goal with
                      | Hv : Cli.py_int _ = Some _ |- _ => rewrite Hv
                      end;
               reflexivity ]
         end.
Qed.

Lemma parse_args_spec argv :
  match Cli.parse_args argv with
  | Ok args => ¬ bad_processes argv ∧ args = requested argv
  | Err e => e = SystemExit 2 ∧ bad_processes argv
  end.
Proof.
  pose proof (parse_from_spec argv Cli.defaults) as H. unfold Cli.parse_args.
  destruct (Cli.parse_from Cli.defaults argv) as [args|e]; [| done].
  destruct H as [Hno ->]. split; [done |]. unfold requested. simpl.
  by destruct (Cli.supplied Cli.input_file argv),
    (Cli.supplied Cli.output_dir argv).
Qed.

Lemma main_run argv args w :
  Cli.parse_args argv = Ok args →
  Cli.main argv w
  = download_fastq_parallel (Cli.ns_output_dir args) None
      (Cli.ns_download_methods args) (Cli.ns_processes args)
      (Cli.ns_input_file args) (Cli.ns_use_max_processes args) w.
Proof.
  intros Hargs. unfold Cli.main.
  rewrite (IO_bind_Ok _ _ w [] args) by (unfold lift; by rewrite Hargs).
  by destruct (download_fastq_parallel _ _ _ _ _ _ w).
Qed.

(** X13. Whenever every value given to [--processes] is an integer
    literal, the script is one call of [download_fastq_parallel] without
    a sample list, in which each argument is the value supplied last for
    its option, and the declared default when the option does not occur:
    no input file, no output directory, the method list
    ["ena-ascp ena-ftp aws-http prefetch"], 10 processes, use-max off. *)
Theorem main_runs_request (argv : Cli.cmdline) (w : World)
    (Hint : ¬ bad_processes argv) :
  Cli.parse_args argv = Ok (requested argv) ∧
  Cli.main argv w
  = download_fastq_parallel
      (Cli.supplied Cli.output_dir argv) None
      (default "ena-ascp ena-ftp aws-http prefetch"
         (Cli.supplied Cli.download_methods argv))
      (default 10 (Cli.supplied Cli.processes argv ≫= Cli.py_int))
      (Cli.supplied Cli.input_file argv)
      (from_option Cli.py_bool false
         (Cli.supplied Cli.use_max_processes argv)) w.
Proof.
  pose proof (parse_args_spec argv) as H.
  destruct (Cli.parse_args argv) as [args|e] eqn:Hargs.
  - destruct H as [_ ->]. split; [done |]. by rewrite (main_run _ _ _ Hargs).
  - by destruct H as [_ ?].
Qed.

Lemma main_runs_request_witness :
  requested_workers
    (Cli.main [(Cli.processes, "3"); (Cli.input_file, "ids.txt");
               (Cli.processes, " 7 ")] Demo.world).1 = [7]
  ∧ length (commands (Cli.main [(Cli.input_file, "ids.txt")] Demo.world).1)
    = 4%nat.
Proof.
  assert (Hno1 : ¬ bad_processes [(Cli.processes, "3"); (Cli.input_file, "ids.txt");
                                   (Cli.processes, " 7 ")]).
  { intros (v & Hin & Hv).
    repeat (apply elem_of_cons in Hin as [[= ->]|Hin]); try discriminate Hv.
    by apply elem_of_nil in Hin. }
  assert (Hno2 : ¬ bad_processes [(Cli.input_file, "ids.txt")]).
  { intros (v & Hin & Hv).
    repeat (apply elem_of_cons in Hin as [[=]|Hin]). by apply elem_of_nil in Hin. }
  split.
  - rewrite (proj2 (main_runs_request _ Demo.world Hno1)).
    vm_compute. reflexivity.
  - rewrite (proj2 (main_runs_request _ Demo.world Hno2)).
    vm_compute. reflexivity.
Defined.

(** X14. A value given to [--processes] that is no integer literal ends
    the script with exit status 2 before anything happens (no file is
    opened, nothing reaches the pool), even when a later [--processes]
    would be valid; and nothing else makes the parsing fail. *)
Theorem main_bad_processes (argv : Cli.cmdline) :
  (bad_processes argv ↔ Cli.parse_args argv = Err (SystemExit 2)) ∧
  (∀ e, Cli.parse_args argv = Err e →
        e = SystemExit 2 ∧ ∀ w, Cli.main argv w = ([], Err (SystemExit 2))).
Proof.
  pose proof (parse_args_spec argv) as H.
  assert (Hmain : Cli.parse_args argv = Err (SystemExit 2) →
                  ∀ w, Cli.main argv w = ([], Err (SystemExit 2))).
  { intros Hargs w. unfold Cli.main.
    by rewrite (IO_bind_Err _ _ w [] (SystemExit 2))
      by (unfold lift; by rewrite Hargs). }
  destruct (Cli.parse_args argv) as [args|e].
  - destruct H as [Hno _]. split; [by split | done].
  - destruct H as [-> Hbad]. split; [by split |].
    intros e [= <-]. split; [done | by apply Hmain].
Qed.

Lemma main_bad_processes_witness :
  Cli.main [(Cli.input_file, "ids.txt"); (Cli.processes, "ten");
            (Cli.processes, "10")] Demo.world
  = ([], Err (SystemExit 2)).
Proof.
  exact (proj2 (proj2 (main_bad_processes
                         [(Cli.input_file, "ids.txt"); (Cli.processes, "ten");
                          (Cli.processes, "10")]) _ eq_refl) Demo.world).
Defined.

(** X15. The script cannot run without an input file: when
    [--input_file] is omitted, or given the empty string, and the command
    line parses, the run ends in a [TypeError] with no file opened and
    nothing dispatched, whatever the other options are. *)
Theorem main_without_input_file (argv : Cli.cmdline) (w : World)
    (Hint : ¬ bad_processes argv)
    (Hfile : Py.truthy (Cli.supplied Cli.input_file argv) = false) :
  (∃ msg, (Cli.main argv w).2 = Err (TypeError msg)) ∧ (Cli.main argv w).1 = [].
Proof.
  pose proof (parse_args_spec argv) as H.
  destruct (Cli.parse_args argv) as [args|e] eqn:Hargs; [| by destruct H as [_ ?]].
  destruct H as [_ ->]. rewrite (main_run _ _ _ Hargs). unfold requested.
  cbn [Cli.ns_input_file Cli.ns_output_dir Cli.ns_download_methods
       Cli.ns_processes Cli.ns_use_max_processes].
  destruct (Cli.supplied Cli.input_file argv) as [[|c path]|]; [| done |];
    destruct (from_option Cli.py_bool false _); simpl; split; by eexists.
Qed.

Lemma main_without_input_file_witness :
  (Cli.main [(Cli.output_dir, "out"); (Cli.use_max_processes, "1")]
     Demo.world).1 = [].
Proof.
  refine (proj2 (main_without_input_file
                   [(Cli.output_dir, "out"); (Cli.use_max_processes, "1")]
                   Demo.world _ eq_refl)).
  intros (v & Hin & _).
  repeat (apply elem_of_cons in Hin as [[=]|Hin]). by apply elem_of_nil in Hin.
Defined.

(** ** The display helpers *)

(** A loop whose body never breaks visits everything. *)
Lemma for_loop_no_break {A} (body : A → list printed * bool) l :
  (∀ x, (body x).2 = false) → for_loop body l = l ≫= λ x, (body x).1.
Proof.
  intros Hbody. induction l as [|x l IH]; [done |]. simpl.
  specialize (Hbody x). destruct (body x) as [out b]. simpl in *. subst b.
  by rewrite IH.
Qed.

(** A loop whose body always breaks visits the first element only. *)
Lemma for_loop_break {A} (body : A → list printed * bool) x l :
  (body x).2 = true → for_loop body (x :: l) = (body x).1.
Proof. simpl. destruct (body x) as [out b]. simpl. by intros ->. Qed.

Lemma print_metadata_spec md :
  print_metadata md
  = (λ kv : string * list string,
       Text (" - " +:+ kv.1 +:+ " : " +:+ Py.join ", " kv.2)) <$> md.
Proof.
  unfold print_metadata. rewrite for_loop_no_break by (by intros [??]).
  induction md as [|[k v] md IH]; [done |]. simpl. by f_equal.
Qed.

Lemma previews_app a b : previews (a ++ b) = previews a ++ previews b.
Proof. apply omap_app. Qed.

Lemma previews_print_metadata md : previews (print_metadata md) = [].
Proof.
  rewrite print_metadata_spec. induction md as [|kv md IH]; [done | exact IH].
Qed.

Lemma length_bind_sum {A B} (f : A → list B) l :
  length (l ≫= f) = sum_list ((λ x, length (f x)) <$> l).
Proof.
  induction l as [|x l IH]; [done |].
  change (length (f x ++ (l ≫= f))
          = (length (f x) + sum_list ((λ x, length (f x)) <$> l))%nat).
  by rewrite length_app, IH.
Qed.

Lemma previews_bind {A} (f : A → list printed) l :
  previews (l ≫= f) = l ≫= λ x, previews (f x).
Proof.
  induction l as [|x l IH]; [done |].
  change (previews (f x ++ (l ≫= f)) = previews (f x) ++ (l ≫= λ x, previews (f x))).
  by rewrite previews_app, IH.
Qed.

Lemma bind_singleton_fmap {A B} (g : A → list B) (h : A → B) l :
  (∀ x, g x = [h x]) → l ≫= g = h <$> l.
Proof.
  intros Hg. induction l as [|x l IH]; [done |].
  change (g x ++ (l ≫= g) = h x :: (h <$> l)). by rewrite Hg, IH.
Qed.

(** What is shown for one sample or platform. *)
Lemma show_GSM_info_blocks gse :
  show_GSM_info gse
  = [Text ""; Text "GSM (sample) info:"] ++
    (gsms gse ≫= λ s : string * GSM,
       [Text ("Name: " +:+ " " +:+ s.1); Text "Metadata:"]
       ++ print_metadata (metadata s.2)
       ++ [Text "Table data:"; TableHead s.1]).
Proof.
  unfold show_GSM_info. f_equal.
  induction (gsms gse) as [|[name gsm] l IH]; [done |].
  cbn [for_loop]. rewrite IH. reflexivity.
Qed.

(** X16. [show_GSM_info] shows every sample of the dataset, in mapping
    order: after the two header lines come, sample by sample, the name,
    one line per metadata key (the values joined by [", "]) and the
    preview of the sample's table; so there is one preview per sample,
    and 2 + the sum over the samples of (4 + number of metadata keys)
    print calls in all. *)
Theorem show_GSM_info_all_samples (gse : GSE) :
  previews (show_GSM_info gse) = (gsms gse).*1 ∧
  length (show_GSM_info gse)
  = (2 + sum_list ((λ s : string * GSM, 4 + length (metadata s.2)) <$> gsms gse))%nat ∧
  (∀ name gsm, (name, gsm) ∈ gsms gse →
     Text ("Name:  " +:+ name) ∈ show_GSM_info gse ∧
     ∀ key value, (key, value) ∈ metadata gsm →
       Text (" - " +:+ key +:+ " : " +:+ Py.join ", " value)
       ∈ show_GSM_info gse) ∧
  (gsms gse = [] → show_GSM_info gse = [Text ""; Text "GSM (sample) info:"]).
Proof.
  rewrite show_GSM_info_blocks. split; [| split; [| split]].
  - rewrite previews_app, previews_bind. simpl app.
    apply bind_singleton_fmap. intros [name gsm].
    by rewrite !previews_app, previews_print_metadata.
  - rewrite length_app, length_bind_sum. simpl length. do 2 f_equal.
    apply list_fmap_ext. intros _ [name gsm] _.
    rewrite !length_app, print_metadata_spec, length_fmap. simpl. lia.
  - intros name gsm Hin. split.
    + apply elem_of_app. right. apply list_elem_of_bind.
      exists (name, gsm). split; [left | done].
    + intros key value Hkv. apply elem_of_app. right.
      apply list_elem_of_bind. exists (name, gsm). split; [| done].
      right. right. apply elem_of_app. left.
      rewrite print_metadata_spec. apply list_elem_of_fmap.
      by exists (key, value).
  - by intros ->.
Qed.

(** X17. [show_GPL_info] shows the first platform only: its loop ends
    after one round, so the output for any mapping of platforms is the
    output for its first entry alone (two header lines, the name, one
    line per metadata key, one table preview), and for no platform at
    all the two header lines. *)
Theorem show_GPL_info_first_only (name : string) (gpl : GPL)
    (rest : list (string * GPL)) :
  show_GPL_info ((name, gpl) :: rest) = show_GPL_info [(name, gpl)] ∧
  previews (show_GPL_info ((name, gpl) :: rest)) = [name] ∧
  length (show_GPL_info ((name, gpl) :: rest))
  = (6 + length (gpl_metadata gpl))%nat ∧
  (∀ other gpl', (other, gpl') ∈ rest → other ≠ name →
     Text ("Name:  " +:+ other) ∉ show_GPL_info ((name, gpl) :: rest)) ∧
  show_GPL_info [] = [Text ""; Text "GPL (project) info:"].
Proof.
  split; [done |]. split; [| split; [| split; [| done]]].
  - unfold show_GPL_info. rewrite for_loop_break by done. simpl.
    change (omap _ ?x) with (previews x).
    by rewrite previews_app, previews_print_metadata.
  - unfold show_GPL_info. rewrite for_loop_break by done. simpl.
    rewrite length_app, print_metadata_spec, length_fmap. simpl. lia.
  - intros other gpl' _ Hne. unfold show_GPL_info.
    rewrite for_loop_break by done. simpl.
    rewrite print_metadata_spec. intros Hin.
    apply elem_of_cons in Hin as [Heq|Hin]; [discriminate Heq |].
    apply elem_of_cons in Hin as [Heq|Hin]; [discriminate Heq |].
    apply elem_of_cons in Hin as [Heq|Hin]; [by injection Heq |].
    apply elem_of_cons in Hin as [Heq|Hin]; [discriminate Heq |].
    apply elem_of_app in Hin as [Hin|Hin].
    + apply list_elem_of_fmap in Hin as ([k v] & Heq & _). discriminate Heq.
    + apply elem_of_cons in Hin as [Heq|Hin]; [discriminate Heq |].
      apply elem_of_cons in Hin as [Heq|Hin]; [discriminate Heq |].
      by apply elem_of_nil in Hin.
Qed.

Lemma show_GPL_info_first_only_witness :
  Text "Name:  GPL2" ∉ show_GPL_info Demo2.platforms.
Proof.
  apply (proj1 (proj2 (proj2 (proj2
           (show_GPL_info_first_only "GPL1"
              {| gpl_metadata := [("title", ["Illumina"; "HiSeq"])] |}
              [("GPL2", {| gpl_metadata := [] |})]))))
           "GPL2" {| gpl_metadata := [] |}); [left | discriminate].
Defined.

Lemma show_GSM_info_all_samples_witness :
  previews (show_GSM_info Demo2.described) = ["GSM1"; "GSM2"]
  ∧ length (show_GSM_info Demo2.described) = 12%nat
  ∧ Text " - organism : Homo, sapiens" ∈ show_GSM_info Demo2.described.
Proof.
  destruct (show_GSM_info_all_samples Demo2.described) as (Hp & Hlen & Hin & _).
  split; [exact Hp | split; [exact Hlen |]].
  refine (proj2 (Hin "GSM1" {| metadata := [("title", ["liver"]);
                                           ("organism", ["Homo"; "sapiens"])] |}
                   _) "organism" ["Homo"; "sapiens"] _).
  - left.
  - right. left.
Defined.

Lemma list_to_dict_one_char_separator_witness :
  raises (list_to_dict ["a:1"; "url:http://x"] ":").
Proof.
  apply (proj2 (list_to_dict_one_char_separator ["a:1"; "url:http://x"] ":"%char)).
  exists "url:http://x". split; [right; left | discriminate].
Defined.


Lemma exit_status_never_inspected_witness :
  download_fastq_parallel None None "ena-ftp" 10 (Some "ids.txt") false
    (with_exit_status Demo.world (λ _, 1))
  = download_fastq_parallel None None "ena-ftp" 10 (Some "ids.txt") false
      Demo.world.
Proof.
  exact (proj1 (exit_status_never_inspected Demo.world (λ _, 1))
           (Call_download_fastq_parallel None None "ena-ftp" 10
              (Some "ids.txt") false)).
Defined.

(** ** [list_to_dict]: order and concatenation *)

Lemma last_value_NoDup_iff k v kvs :
  NoDup kvs.*1 → last_value k kvs = Some v ↔ (k, v) ∈ kvs.
Proof.
  intros Hnd. split; [| by apply last_value_NoDup].
  clear Hnd. induction kvs as [|[k' v'] kvs IH]; simpl; [done |].
  destruct (last_value k kvs) as [v''|].
  - intros [= ->]. right. by apply IH.
  - destruct (decide (k' = k)) as [->|_]; [| done]. intros [= ->]. left.
Qed.

Lemma last_value_Permutation k kvs kvs' :
  NoDup kvs.*1 → kvs ≡ₚ kvs' → last_value k kvs = last_value k kvs'.
Proof.
  intros Hnd Hp.
  assert (Hnd' : NoDup kvs'.*1) by (by rewrite <- Hp).
  destruct (last_value k kvs) as [v|] eqn:E.
  - symmetry. apply last_value_NoDup_iff; [done |]. rewrite <- Hp.
    by apply last_value_NoDup_iff.
  - destruct (last_value k kvs') as [v'|] eqn:E'; [| done].
    apply last_value_NoDup_iff in E'; [| done]. rewrite <- Hp in E'.
    apply last_value_NoDup_iff in E'; [| done]. congruence.
Qed.

Lemma Forall2_binding_of_omap sep l :
  Forall (λ s, is_Some (binding_of sep s)) l →
  Forall2 (λ s kv, binding_of sep s = Some kv) l (omap (binding_of sep) l).
Proof.
  induction 1 as [|s l [kv Hs] _ IH]; [constructor |].
  cbn. rewrite Hs. by constructor.
Qed.

Lemma list_to_dict_Ok_omap l sep d :
  list_to_dict l sep = Ok d ↔
  Forall (λ s, is_Some (binding_of sep s)) l ∧
  d = foldl (λ m kv, <[kv.1 := kv.2]> m) ∅ (omap (binding_of sep) l).
Proof.
  rewrite list_to_dict_Ok. split.
  - intros (kvs & Hkvs & ->). rewrite (Forall2_binding_omap _ _ _ Hkvs).
    split; [| done]. apply Forall_forall. intros s Hs.
    apply list_elem_of_lookup in Hs as [i Hi].
    destruct (Forall2_lookup_l _ _ _ _ _ Hkvs Hi) as (kv & _ & Hkv).
    by exists kv.
  - intros [Hall ->]. exists (omap (binding_of sep) l).
    split; [by apply Forall2_binding_of_omap | done].
Qed.

(** X18. When no key occurs twice, the order of the input strings does
    not matter: [list_to_dict] returns the same dictionary for every
    rearrangement of the list. *)
Theorem list_to_dict_order (l l' : list string) (sep : string)
    (d : gmap string string) (Hd : list_to_dict l sep = Ok d)
    (Hperm : l ≡ₚ l') (Hkeys : NoDup (omap (binding_of sep) l).*1) :
  list_to_dict l' sep = Ok d.
Proof.
  apply list_to_dict_Ok_omap in Hd as [Hall ->].
  apply list_to_dict_Ok_omap. split; [by rewrite <- Hperm |].
  apply map_eq. intros k. rewrite !foldl_insert_lookup.
  rewrite (last_value_Permutation k _ (omap (binding_of sep) l') Hkeys); [done |].
  by rewrite Hperm.
Qed.

Lemma list_to_dict_order_witness :
  list_to_dict ["b:2"; "a:1"] ":" = Ok (<["b":="2"]> (<["a":="1"]> ∅))
  ∧ list_to_dict ["a:1"; "a:2"] ":" ≠ list_to_dict ["a:2"; "a:1"] ":".
Proof.
  split.
  - apply (list_to_dict_order ["a:1"; "b:2"] ["b:2"; "a:1"] ":").
    + vm_compute. reflexivity.
    + apply Permutation_swap.
    + apply (NoDup_cons "a" ["b"]). split.
      * by intros [[=]|?%elem_of_nil]%elem_of_cons.
      * apply NoDup_singleton.
  - vm_compute. discriminate.
Defined.

Lemma foldl_insert_union (d : gmap string string) kvs :
  foldl (λ m kv, <[kv.1 := kv.2]> m) d kvs
  = foldl (λ m kv, <[kv.1 := kv.2]> m) ∅ kvs ∪ d.
Proof.
  apply map_eq. intros k.
  rewrite lookup_union, !foldl_insert_lookup, lookup_empty.
  destruct (last_value k kvs); simpl; [by destruct (d !! k) |].
  by destruct (d !! k).
Qed.

(** X19. Converting a concatenation is converting the two parts and
    letting the second override the first: [list_to_dict (l1 ++ l2)]
    returns exactly when both parts do, and then its dictionary is the
    union of theirs in which a key of both has the value from [l2]. *)
Theorem list_to_dict_app (l1 l2 : list string) (sep : string) :
  match list_to_dict (l1 ++ l2) sep with
  | Ok d =>
      ∃ d1 d2, list_to_dict l1 sep = Ok d1 ∧ list_to_dict l2 sep = Ok d2 ∧
               d = d2 ∪ d1
  | Err _ => raises (list_to_dict l1 sep) ∨ raises (list_to_dict l2 sep)
  end.
Proof.
  destruct (list_to_dict (l1 ++ l2) sep) as [d|e] eqn:Hd.
  - apply list_to_dict_Ok_omap in Hd as [[H1 H2]%Forall_app ->].
    eexists _, _. split; [by apply list_to_dict_Ok_omap |].
    split; [by apply list_to_dict_Ok_omap |].
    by rewrite omap_app, foldl_app, foldl_insert_union.
  - assert (Hr : raises (list_to_dict (l1 ++ l2) sep)) by (by exists e).
    apply list_to_dict_raises_iff in Hr as (s & [Hs|Hs]%elem_of_app & Hnone);
      [left | right]; apply list_to_dict_raises_iff; by exists s.
Qed.

Lemma list_to_dict_app_witness :
  list_to_dict (["a:1"; "b:2"] ++ ["a:3"]) ":"
  = Ok ((<["a":="3"]> ∅ : gmap string string) ∪ <["b":="2"]> (<["a":="1"]> ∅)).
Proof.
  pose proof (list_to_dict_app ["a:1"; "b:2"] ["a:3"] ":") as H.
  destruct (list_to_dict (["a:1"; "b:2"] ++ ["a:3"]) ":") as [d|e] eqn:Hd.
  - destruct H as (d1 & d2 & H1 & H2 & ->).
    vm_compute in H1. vm_compute in H2.
    injection H1 as <-. injection H2 as <-. vm_compute. reflexivity.
  - vm_compute in Hd. discriminate Hd.
Defined.
